(** * pass2bitwarden: the field-extraction engine of [pass2bw.py]

    A shallow embedding of [parse], [_guess_uri] and the configuration of
    [defaults.py], together with the part of Python's [re] and [str]
    libraries that they call.

    Conventions.
    - A Python [str] is a Rocq [string]: a sequence of characters whose code
      points lie below 256.
    - A [dict] used as a record ([row]) is a [gmap string string]; the set
      [found_fields] is a [gset string].
    - [print] appends to an explicit list of output lines.
    - A Python exception is a value of [exn]; fallible code returns
      [result].
    - A pattern of [FIELD_PATTERNS] is a [Re.pattern]: a regular expression
      with one capture group that takes part in every match, as
      [match.group(1)] at line 103 needs it. *)

From stdpp Require Import gmap strings list fin_maps.
From Stdlib Require Import Ascii String.

Open Scope string_scope.
Open Scope list_scope.

Set Warnings "-clear-no-such-hyp".

(** ** Characters *)

Module Chr.

Definition code (c : ascii) : N := N_of_ascii c.

(** [lo <= c <= hi] on code points: one range of a character set. *)
Definition between (lo hi c : ascii) : bool :=
  ((code lo <=? code c) && (code c <=? code hi))%N.

Definition is_upper (c : ascii) : bool := between "A" "Z" c.
Definition is_lower (c : ascii) : bool := between "a" "z" c.
Definition is_alpha (c : ascii) : bool := is_upper c || is_lower c.
Definition is_digit (c : ascii) : bool := between "0" "9" c.

(** The capital letters beyond ASCII, U+00C0 to U+00DE without the
    multiplication sign, and their small letters, 32 further on. *)
Definition is_upper_latin1 (c : ascii) : bool :=
  between "192" "222" c && negb (Ascii.eqb c "215").
Definition is_lower_latin1 (c : ascii) : bool :=
  between "224" "254" c && negb (Ascii.eqb c "247").

(** Case mapping as [re.IGNORECASE] uses it, on the characters modelled:
    [str.lower] and [str.upper] for one character, where the result is
    again below code point 256 (the capitals of U+00B5 and U+00FF are
    not). *)
Definition lower (c : ascii) : ascii :=
  if is_upper c || is_upper_latin1 c then ascii_of_N (code c + 32) else c.
Definition upper (c : ascii) : ascii :=
  if is_lower c || is_lower_latin1 c then ascii_of_N (code c - 32) else c.

Definition eqb_ci (ic : bool) (a b : ascii) : bool :=
  if ic then Ascii.eqb (lower a) (lower b) else Ascii.eqb a b.

Definition newline : ascii := "010".

End Chr.

(** ** Regular expressions: the fragment of [re] used by the program *)

Module Re.

(** Abstract syntax of a compiled pattern.  Only capture group 1 is ever
    read by the program, so [Group] stands for that group. *)
Inductive regex : Type :=
| Eps                                            (* empty pattern *)
| Lit (c : ascii)                                (* a literal character *)
| Dot                                            (* [.]: all but newline *)
| Cls (neg : bool) (ranges : list (ascii * ascii)) (* [[...]] and [[^...]] *)
| Seq (r1 r2 : regex)                            (* r1 r2 *)
| Alt (r1 r2 : regex)                            (* r1|r2 *)
| Rep (lo : nat) (hi : option nat) (r : regex)   (* greedy r{lo,hi} *)
| Group (r : regex)                              (* (r) *)
| Bol                                            (* ^ *)
| Eol                                            (* $ *)
| NotAhead (r : regex)                           (* (?!r) *)
| NotBehind (c : ascii).                         (* (?<!c) *)

(** [r?], [r*], [r+], a literal word and a concatenation. *)
Definition Opt (r : regex) : regex := Rep 0 (Some 1) r.
Definition Star (r : regex) : regex := Rep 0 None r.
Definition Plus (r : regex) : regex := Rep 1 None r.

Fixpoint Word (s : string) : regex :=
  match s with
  | "" => Eps
  | String c "" => Lit c
  | String c s' => Seq (Lit c) (Word s')
  end.

Fixpoint Cat (rs : list regex) : regex :=
  match rs with
  | [] => Eps
  | [r] => r
  | r :: rs' => Seq r (Cat rs')
  end.

(** The matcher's position in the subject string: the character just
    before it (none at the start), the text still ahead, and the text
    captured by group 1 so far. *)
Record state : Type := State {
  prev : option ascii;
  rest : string;
  cap : option string
}.

Definition start (s : string) : state :=
  {| prev := None; rest := s; cap := None |}.

(** Consume one character satisfying [p]. *)
Definition eat (p : ascii -> bool) (st : state) : option state :=
  match rest st with
  | String c s' =>
      if p c then Some {| prev := Some c; rest := s'; cap := cap st |}
      else None
  | "" => None
  end.

Definition in_ranges (ranges : list (ascii * ascii)) (c : ascii) : bool :=
  existsb (fun '(lo, hi) => Chr.between lo hi c) ranges.

Definition in_class (ic neg : bool) (ranges : list (ascii * ascii))
    (c : ascii) : bool :=
  xorb neg
    (in_ranges ranges c
     || (ic && (in_ranges ranges (Chr.lower c)
                || in_ranges ranges (Chr.upper c)))).

Definition not_newline (c : ascii) : bool :=
  negb (Ascii.eqb c Chr.newline).

(** [$] without [re.MULTILINE]: at the end, or before a final newline. *)
Definition at_eol (st : state) : bool :=
  match rest st with
  | "" => true
  | String c "" => Ascii.eqb c Chr.newline
  | _ => false
  end.

(** The text consumed between two positions of one subject. *)
Definition consumed (st st' : state) : string :=
  substring 0 (String.length (rest st) - String.length (rest st')) (rest st).

Definition set_cap (st st' : state) : state :=
  {| prev := prev st'; rest := rest st'; cap := Some (consumed st st') |}.

(** Number of iterations an [r{lo,hi}] may make from [st].  With no upper
    bound the count is limited by the text ahead: the body of every
    unbounded repetition in the patterns consumes a character. *)
Definition rep_bound (hi : option nat) (st : state) : nat :=
  match hi with
  | Some h => h
  | None => String.length (rest st)
  end.

(** Greedy repetition of [body], at most [fuel] more times and at least
    [lo] more times: one more iteration is tried first, and stopping here
    is the fallback when that fails. *)
Fixpoint rep_loop (body : state -> (state -> option state) -> option state)
    (k : state -> option state) (fuel lo : nat) (st : state)
    {struct fuel} : option state :=
  match fuel with
  | O => if decide (lo = 0) then k st else None
  | S fuel' =>
      match body st (fun st' => rep_loop body k fuel' (pred lo) st') with
      | Some m => Some m
      | None => if decide (lo = 0) then k st else None
      end
  end.

(** Backtracking matcher in continuation-passing style: [exec ic r st k]
    tries the ways [r] can match at [st] in the order Python's engine
    does (left alternative first, longest repetition first) and returns
    the first for which the continuation [k] succeeds. [ic] is
    [re.IGNORECASE]. *)
Fixpoint exec (ic : bool) (r : regex) (st : state)
    (k : state -> option state) {struct r} : option state :=
  match r with
  | Eps => k st
  | Lit c => st' ← eat (Chr.eqb_ci ic c) st; k st'
  | Dot => st' ← eat not_newline st; k st'
  | Cls neg ranges => st' ← eat (in_class ic neg ranges) st; k st'
  | Seq r1 r2 => exec ic r1 st (fun st' => exec ic r2 st' k)
  | Alt r1 r2 =>
      match exec ic r1 st k with
      | Some m => Some m
      | None => exec ic r2 st k
      end
  | Rep lo hi r1 => rep_loop (exec ic r1) k (rep_bound hi st) lo st
  | Group r1 => exec ic r1 st (fun st' => k (set_cap st st'))
  | Bol => if prev st is None then k st else None
  | Eol => if at_eol st then k st else None
  | NotAhead r1 => if exec ic r1 st Some is None then k st else None
  | NotBehind c =>
      match prev st with
      | Some d => if Chr.eqb_ci ic c d then None else k st
      | None => k st
      end
  end.

(** [re.match(r, s, flags)]: a match starting at the first character. *)
Definition re_match (ic : bool) (r : regex) (s : string) : option state :=
  exec ic r (start s) Some.

(** [re.search(r, s, flags)]: the first position at which [r] matches. *)
Fixpoint search_from (ic : bool) (r : regex) (p : option ascii)
    (s : string) : option state :=
  match exec ic r {| prev := p; rest := s; cap := None |} Some with
  | Some m => Some m
  | None =>
      match s with
      | "" => None
      | String c s' => search_from ic r (Some c) s'
      end
  end.

Definition re_search (ic : bool) (r : regex) (s : string) : option state :=
  search_from ic r None s.

(** Group 1 lies on every path through [r]. *)
Fixpoint sets_group (r : regex) : bool :=
  match r with
  | Group _ => true
  | Seq r1 r2 => sets_group r1 || sets_group r2
  | Alt r1 r2 => sets_group r1 && sets_group r2
  | Rep lo _ r1 => bool_decide (0 < lo) && sets_group r1
  | _ => false
  end.

(** The number of capture groups written in [r]. *)
Fixpoint group_count (r : regex) : nat :=
  match r with
  | Group r1 => S (group_count r1)
  | Seq r1 r2 | Alt r1 r2 => group_count r1 + group_count r2
  | Rep _ _ r1 | NotAhead r1 => group_count r1
  | _ => 0
  end.

(** [r] can match the empty text. *)
Fixpoint nullable (r : regex) : bool :=
  match r with
  | Lit _ | Dot | Cls _ _ => false
  | Seq r1 r2 => nullable r1 && nullable r2
  | Alt r1 r2 => nullable r1 || nullable r2
  | Rep lo _ r1 => bool_decide (lo = 0) || nullable r1
  | Group r1 => nullable r1
  | _ => true
  end.

(** Every repetition in [r] repeats a body that consumes a character, as
    [rep_bound] supposes. *)
Fixpoint consuming (r : regex) : bool :=
  match r with
  | Seq r1 r2 | Alt r1 r2 => consuming r1 && consuming r2
  | Rep _ _ r1 => negb (nullable r1) && consuming r1
  | Group r1 | NotAhead r1 => consuming r1
  | _ => true
  end.

(** What line 103 needs of a pattern, and what this model covers: one
    capture group, which takes part in every match, so that
    [match.group(1)] neither raises [IndexError] nor is [None]; and
    repetitions as [rep_bound] supposes them. *)
Definition valid (r : regex) : bool :=
  Nat.eqb (group_count r) 1 && sets_group r && consuming r.

(** A pattern of [FIELD_PATTERNS].  Configurations with other patterns are
    not values of this type. *)
Record pattern : Type := Pattern {
  pattern_re :> regex;
  pattern_valid : valid pattern_re = true
}.

(** [m.group(1)] for a match [m] of a [pattern]: the group has always
    taken part ([ReFacts.pattern_group_set]), so that the text for an
    unset group is never returned. *)
Definition group1 (m : state) : string := default "" (cap m).

(** *** What a pattern matches, without the search order *)

Fixpoint iter (n : nat) (R : state -> state -> Prop) (st st' : state)
    : Prop :=
  match n with
  | O => st' = st
  | S n' => exists mid, R st mid /\ iter n' R mid st'
  end.

(** [matches ic r st st']: [r] can match from position [st] up to
    position [st']. *)
Fixpoint matches (ic : bool) (r : regex) (st st' : state) {struct r}
    : Prop :=
  match r with
  | Eps => st' = st
  | Lit c => eat (Chr.eqb_ci ic c) st = Some st'
  | Dot => eat not_newline st = Some st'
  | Cls neg ranges => eat (in_class ic neg ranges) st = Some st'
  | Seq r1 r2 => exists mid, matches ic r1 st mid /\ matches ic r2 mid st'
  | Alt r1 r2 => matches ic r1 st st' \/ matches ic r2 st st'
  | Rep lo hi r1 =>
      exists n, lo <= n <= rep_bound hi st /\ iter n (matches ic r1) st st'
  | Group r1 => exists mid, matches ic r1 st mid /\ st' = set_cap st mid
  | Bol => prev st = None /\ st' = st
  | Eol => at_eol st = true /\ st' = st
  | NotAhead r1 => (forall mid, ~ matches ic r1 st mid) /\ st' = st
  | NotBehind c =>
      (forall d, prev st = Some d -> Chr.eqb_ci ic c d = false) /\ st' = st
  end.

End Re.

(** ** The [str] and [os.path] functions the program calls *)

Module Py.

(** Line boundaries of [str.splitlines]: LF, VT, FF, CR, FS, GS, RS and
    NEL (U+2028 and U+2029 lie outside the characters modelled). *)
Definition is_linebreak (c : ascii) : bool :=
  Chr.between "010" "013" c || Chr.between "028" "030" c
  || Ascii.eqb c "133".

Definition is_cr (c : ascii) : bool := Ascii.eqb c "013".
Definition is_lf (c : ascii) : bool := Ascii.eqb c "010".

(** [cur] is the line being read; [after_cr] says that the previous
    character was a CR, whose LF partner is part of the same break. *)
Fixpoint splitlines_from (cur : string) (after_cr : bool) (s : string)
    : list string :=
  match s with
  | "" => if decide (cur = "") then [] else [cur]
  | String c s' =>
      if after_cr && is_lf c then splitlines_from "" false s'
      else if is_linebreak c then cur :: splitlines_from "" (is_cr c) s'
      else splitlines_from (cur +:+ String c "") false s'
  end.

(** [s.splitlines()] *)
Definition splitlines (s : string) : list string :=
  splitlines_from "" false s.

(** [sep.join(l)] *)
Definition join (sep : string) (l : list string) : string :=
  String.concat sep l.

Definition is_slash (c : ascii) : bool := Ascii.eqb c "/".

(** [(p[:i], p[i:])] for [i = p.rfind('/') + 1], the split that
    [posixpath.basename] and [posixpath.dirname] start from. *)
Fixpoint rsplit_slash (p : string) : string * string :=
  match p with
  | "" => ("", "")
  | String c p' =>
      match rsplit_slash p' with
      | ("", _) => if is_slash c then (String c "", p') else ("", p)
      | (h, t) => (String c h, t)
      end
  end.

(** [os.path.basename(p)] *)
Definition basename (p : string) : string := (rsplit_slash p).2.

(** [s.lstrip('/')] *)
Fixpoint lstrip_slash (s : string) : string :=
  match s with
  | String c s' => if is_slash c then lstrip_slash s' else s
  | "" => ""
  end.

(** [s.rstrip('/')] *)
Fixpoint rstrip_slash (s : string) : string :=
  match s with
  | "" => ""
  | String c s' =>
      match rstrip_slash s' with
      | "" => if is_slash c then "" else String c ""
      | t => String c t
      end
  end.

(** [os.path.dirname(p)]: the head of the split, without its trailing
    slashes unless it consists of slashes only. *)
Definition dirname (p : string) : string :=
  let head := (rsplit_slash p).1 in
  match rstrip_slash head with
  | "" => head
  | t => t
  end.

(** [s.replace(old, '')]: the occurrences of [old] are removed from left
    to right, without overlap; [skip] counts the characters of the
    occurrence being removed.  An empty [old] removes nothing. *)
Fixpoint remove_from (old : string) (skip : nat) (s : string) : string :=
  match s with
  | "" => ""
  | String c s' =>
      match skip with
      | S n => remove_from old n s'
      | O =>
          if negb (String.eqb old "") && String.prefix old s
          then remove_from old (String.length old - 1) s'
          else String c (remove_from old 0 s')
      end
  end.

Definition remove_all (old s : string) : string := remove_from old 0 s.





End Py.

(** ** [defaults.py] and the configuration it stands for *)

(** The six names [pass2bw.py] imports from [config], or from [defaults]
    when there is no [config].  The dictionaries are given by their items,
    in order. *)
Record config : Type := Config {
  CSV_FIELDS : list string;
  FIELD_DEFAULTS : list (string * string);
  FIELD_FUNCTIONS : list (string * (string -> string -> string -> string));
  FIELD_PATTERNS : list (string * Re.pattern);
  FALLBACK_FIELD : string;
  FIRSTLINE_IS_LOGIN_PASSWORD : bool
}.

Module defaults.
Import Re.

Definition CSV_FIELDS : list string :=
  [ "name"; "folder"; "type"; "favorite"; "notes"; "fields"; "login_totp";
    "login_uri"; "login_username"; "login_password" ].

Definition FIELD_DEFAULTS : list (string * string) :=
  [ ("type", "login") ].

Definition name (base path data : string) : string := Py.basename path.

Definition folder (base path data : string) : string :=
  Py.lstrip_slash (Py.remove_all base (Py.dirname path)).

Definition FIELD_FUNCTIONS
    : list (string * (string -> string -> string -> string)) :=
  [ ("name", name); ("folder", folder) ].

(** [^url ?: ?(G)$] with the group [G = .*] *)
Definition login_uri_pattern : pattern :=
  Pattern
    (Cat [ Bol; Word "url"; Opt (Lit " "); Lit ":"; Opt (Lit " ");
           Group (Star Dot); Eol ])
    eq_refl.

(** [^(?:user|login|username)D ?: ?(G)$] with [D = .*] and the group
    [G = .*] *)
Definition login_username_pattern : pattern :=
  Pattern
    (Cat [ Bol; Alt (Word "user") (Alt (Word "login") (Word "username"));
           Star Dot; Opt (Lit " "); Lit ":"; Opt (Lit " ");
           Group (Star Dot); Eol ])
    eq_refl.

(** [otpauth://totp/[^?]+\?secret=([^&]+)] *)
Definition login_totp_pattern : pattern :=
  Pattern
    (Cat [ Word "otpauth://totp/"; Plus (Cls true [("?", "?")]%char);
           Word "?secret="; Group (Plus (Cls true [("&", "&")]%char)) ])
    eq_refl.

Definition FIELD_PATTERNS : list (string * pattern) :=
  [ ("login_uri", login_uri_pattern);
    ("login_username", login_username_pattern);
    ("login_totp", login_totp_pattern) ].

Definition FALLBACK_FIELD : string := "notes".

Definition FIRSTLINE_IS_LOGIN_PASSWORD : bool := true.

Definition cfg : config :=
  Config CSV_FIELDS FIELD_DEFAULTS FIELD_FUNCTIONS FIELD_PATTERNS
         FALLBACK_FIELD FIRSTLINE_IS_LOGIN_PASSWORD.

End defaults.

(** ** [pass2bw.py] *)

(** An element of [files]: the dictionary with keys ['path'] and ['data']
    that [decrypt] builds. *)
Record file : Type := File { path : string; data : string }.

Inductive exn : Type :=
| KeyError (key : string)
| ValueError.

Inductive result (A : Type) : Type :=
| Ok (a : A)
| Raise (e : exn).
Arguments Ok {A} a.
Arguments Raise {A} e.

(** [^((?!-)[A-Za-z0-9-]{1,63}(?<!-)\.)+[A-Za-z]{2,6}], given by its
    repeated group (a label and its dot) and its last part. *)
Definition DOMAIN_LABEL : Re.regex :=
  Re.Group
    (Re.Cat
       [ Re.NotAhead (Re.Lit "-");
         Re.Rep 1 (Some 63)
           (Re.Cls false
              [("A", "Z"); ("a", "z"); ("0", "9"); ("-", "-")]%char);
         Re.NotBehind "-";
         Re.Lit "." ]).

Definition DOMAIN_TLD : Re.regex :=
  Re.Rep 2 (Some 6) (Re.Cls false [("A", "Z"); ("a", "z")]%char).

Definition DOMAIN_REGEX : Re.regex :=
  Re.Cat [ Re.Bol; Re.Plus DOMAIN_LABEL; DOMAIN_TLD ].

(** [_guess_uri(row)] *)
Definition _guess_uri (row : gmap string string) : result string :=
  if negb (bool_decide ("login_uri" ∈ dom row)) then Ok ""
  else
    match row !! "name" with
    | None => Raise (KeyError "name")
    | Some name =>
        if Re.re_search false DOMAIN_REGEX name is Some _ then Ok name
        else Ok ""
    end.

(** The two messages [parse] prints. *)
Definition empty_warning (path : string) : string :=
  "Warning: File '" +:+ path +:+ "' is empty.".

Definition duplicate_warning (field path : string) : string :=
  "Warning: Duplicate field '" +:+ field +:+ "' found in file '" +:+ path
  +:+ "'. Skipping duplicate.".

(** The variables of one iteration of [for file in files], and the lines
    printed so far. *)
Record vars : Type := Vars {
  row : gmap string string;
  found_fields : gset string;
  fallback_field_lines : list string;
  stdout : list string
}.

Definition print (msg : string) (v : vars) : vars :=
  Vars (row v) (found_fields v) (fallback_field_lines v) (stdout v ++ [msg]).

(** [row[field] = value; found_fields.add(field)] *)
Definition assign (field value : string) (v : vars) : vars :=
  Vars (<[field := value]> (row v)) ({[field]} ∪ found_fields v)
       (fallback_field_lines v) (stdout v).

Section Engine.
Variable cfg : config.

(** Lines 64-76: a fresh row with the default and function-based
    fields. *)
Definition init_row (base_dir : string) (f : file) : gmap string string :=
  let row :=
    foldl (fun row '(field, value) => <[field := value]> row)
          ∅ (FIELD_DEFAULTS cfg) in
  foldl (fun row '(field, fn) =>
           <[field := fn base_dir (path f) (data f)]> row)
        row (FIELD_FUNCTIONS cfg).

(** Lines 95-105, the loop [for field, pattern in FIELD_PATTERNS.items()]
    over the patterns still to try.  The boolean tells whether the loop
    was left by [break]; [continue] goes on with the next pattern. *)
Fixpoint match_line (path line : string) (patterns : list (string * Re.pattern))
    (v : vars) : bool * vars :=
  match patterns with
  | [] => (false, v)
  | (field, pattern) :: patterns' =>
      match Re.re_match true (Re.pattern_re pattern) line with
      | Some m =>
          if decide (field ∈ found_fields v)
          then match_line path line patterns'
                 (print (duplicate_warning field path) v)
          else (true, assign field (Re.group1 m) v)
      | None => match_line path line patterns' v
      end
  end.

(** Lines 95-109, the body of [for line in lines]: the [else] branch of
    the inner loop runs when that loop was not left by [break]. *)
Definition process_line (path : string) (v : vars) (line : string) : vars :=
  let '(broke, v) := match_line path line (FIELD_PATTERNS cfg) v in
  if broke then v
  else
    Vars (row v) ({[FALLBACK_FIELD cfg]} ∪ found_fields v)
         (fallback_field_lines v ++ [line]) (stdout v).

(** Lines 84-88. *)
Definition first_line (lines : list string) (v : vars) : list string * vars :=
  match lines with
  | line :: lines' =>
      if FIRSTLINE_IS_LOGIN_PASSWORD cfg
      then (lines', assign "login_password" line v)
      else (lines, v)
  | [] => (lines, v)
  end.

(** Lines 111-113. *)
Definition populate_fallback (v : vars) : vars :=
  if decide (FALLBACK_FIELD cfg ∈ found_fields v)
  then Vars (<[FALLBACK_FIELD cfg := Py.join (String Chr.newline "")
                                       (fallback_field_lines v)]> (row v))
            (found_fields v) (fallback_field_lines v) (stdout v)
  else v.

(** Lines 84-113 for one file with the lines [lines], started from the
    row [row0]. *)
Definition extract (path : string) (row0 : gmap string string)
    (lines : list string) : vars :=
  let '(lines, v) := first_line lines (Vars row0 ∅ [] []) in
  populate_fallback (foldl (process_line path) v lines).

(** Lines 115-118. *)
Definition complete (row : gmap string string) : gmap string string :=
  foldl (fun row field =>
           if decide (field ∈ dom row) then row else <[field := ""]> row)
        row (CSV_FIELDS cfg).

(** Lines 120-121. *)
Definition infer_uri (row : gmap string string)
    : result (gmap string string) :=
  match row !! "login_uri" with
  | None => Raise (KeyError "login_uri")
  | Some uri =>
      if decide (uri = "")
      then match _guess_uri row with
           | Ok uri' => Ok (<["login_uri" := uri']> row)
           | Raise e => Raise e
           end
      else Ok row
  end.

(** The body of [for file in files]: what it prints, and the row it
    appends to [parsed] unless it raises. *)
Definition parse_file (base_dir : string) (f : file)
    : list string * result (gmap string string) :=
  let lines := Py.splitlines (data f) in
  let row0 := init_row base_dir f in
  match lines with
  | [] => ([empty_warning (path f)], Ok row0)
  | _ =>
      let v := extract (path f) row0 lines in
      (stdout v, infer_uri (complete (row v)))
  end.

(** [for file in files], with [parsed] and the printed lines as loop
    state; an exception ends the loop. *)
Fixpoint parse_loop (base_dir : string) (files : list file)
    (parsed : list (gmap string string)) (out : list string)
    : list string * result (list (gmap string string)) :=
  match files with
  | [] => (out, Ok parsed)
  | f :: files' =>
      let '(msgs, r) := parse_file base_dir f in
      match r with
      | Ok row => parse_loop base_dir files' (parsed ++ [row]) (out ++ msgs)
      | Raise e => (out ++ msgs, Raise e)
      end
  end.






End Engine.

(** ** Vocabulary of the statements *)

(** The newline separator of [str.join] at line 113. *)
Definition nl : string := String Chr.newline "".

(** Some pattern of [patterns] matches [line] and its field is not in
    [found]: the inner loop will leave by [break]. *)
Definition claimed (patterns : list (string * Re.pattern))
    (found : gset string) (line : string) : bool :=
  existsb (fun '(field, pattern) =>
             bool_decide (is_Some (Re.re_match true (Re.pattern_re pattern) line))
             && bool_decide (field ∉ found))
          patterns.

(** The warnings of the patterns that match [line]; they are printed when
    the fields of all these patterns are already found. *)
Definition dup_warnings (path line : string)
    (patterns : list (string * Re.pattern)) : list string :=
  flat_map (fun '(field, pattern) =>
              if Re.re_match true (Re.pattern_re pattern) line is Some _
              then [duplicate_warning field path] else [])
           patterns.


(** A pattern that matches every line: a group around [.*]. *)
Definition any_line_pattern : Re.pattern :=
  Re.Pattern (Re.Group (Re.Star Re.Dot)) eq_refl.

(** A configuration with three patterns that match the same lines: the
    second and the third match every line. *)
Definition overlapping_cfg : config :=
  Config defaults.CSV_FIELDS defaults.FIELD_DEFAULTS defaults.FIELD_FUNCTIONS
         [ ("login_uri", defaults.login_uri_pattern);
           ("fields", any_line_pattern);
           ("favorite", any_line_pattern) ]
         defaults.FALLBACK_FIELD defaults.FIRSTLINE_IS_LOGIN_PASSWORD.

(** A configuration in which [login_username] has a default value and can
    also be read from the content. *)
Definition defaulted_cfg : config :=
  Config defaults.CSV_FIELDS
         [ ("type", "login"); ("login_username", "anonymous") ]
         defaults.FIELD_FUNCTIONS defaults.FIELD_PATTERNS
         defaults.FALLBACK_FIELD defaults.FIRSTLINE_IS_LOGIN_PASSWORD.

(** Host names, as [DOMAIN_REGEX] reads them. *)
Fixpoint all_chars (p : ascii -> bool) (s : string) : bool :=
  match s with
  | "" => true
  | String c s' => p c && all_chars p s'
  end.

Definition first_char (s : string) : option ascii :=
  match s with
  | "" => None
  | String c _ => Some c
  end.

Fixpoint last_char (s : string) : option ascii :=
  match s with
  | "" => None
  | String c "" => Some c
  | String _ s' => last_char s'
  end.

(** A letter, a digit or a hyphen. *)
Definition label_char (c : ascii) : bool :=
  Chr.is_alpha c || Chr.is_digit c || Ascii.eqb c "-".

(** A label: 1 to 63 letters, digits and hyphens, with no hyphen at
    either end. *)
Definition is_label (l : string) : bool :=
  bool_decide (1 <= String.length l <= 63)
  && all_chars label_char l
  && negb (bool_decide (first_char l = Some "-"%char))
  && negb (bool_decide (last_char l = Some "-"%char)).

(** The labels, each followed by a dot. *)
Fixpoint dotted (labels : list string) : string :=
  match labels with
  | [] => ""
  | l :: labels' => l +:+ "." +:+ dotted labels'
  end.

(** [name] begins with one or more labels, each followed by a dot, and
    then two letters. *)
Definition hostname_prefix (name : string) : Prop :=
  exists (labels : list string) (a b : ascii) (tail : string),
    labels ≠ [] /\
    Forall (fun l => is_label l = true) labels /\
    Chr.is_alpha a = true /\ Chr.is_alpha b = true /\
    name = dotted labels +:+ String a (String b tail).


(** [name] resembles a DNS host name: one or more labels, each followed
    by a dot, and a last label of 2 to 6 letters. *)
Definition is_hostname (name : string) : Prop :=
  exists (labels : list string) (tld : string),
    labels ≠ [] /\
    Forall (fun l => is_label l = true) labels /\
    2 <= String.length tld <= 6 /\
    all_chars Chr.is_alpha tld = true /\
    name = dotted labels +:+ tld.






(** * Properties *)

(** Decide a closed proposition by evaluation. *)
Ltac by_compute := apply (bool_decide_unpack _); vm_compute; exact I.

(** A computation that returns a row with a decidable property. *)
Lemma Ok_by_compute {A : Type} (x : result A) (P : A -> Prop)
    `{!forall a, Decision (P a)} :
  match x with Ok a => bool_decide (P a) | Raise _ => false end = true ->
  exists a, x = Ok a /\ P a.
Proof.
  destruct x as [a|e]; [|done]. intros Hb%bool_decide_eq_true. eauto.
Qed.

(** ** The matcher against the declarative semantics *)

Module ReFacts.
Import Re.

Section RepLoop.
Variable body : state -> (state -> option state) -> option state.
Variable R : state -> state -> Prop.
Variable k : state -> option state.

Lemma rep_loop_sound :
  (forall st k' m,
     body st k' = Some m -> exists st', R st st' /\ k' st' = Some m) ->
  forall fuel lo st m,
    rep_loop body k fuel lo st = Some m ->
    exists n st', (lo <= n <= fuel) /\ iter n R st st' /\ k st' = Some m.
Proof.
  intros Hbody. induction fuel as [|fuel IH]; intros lo st m; simpl.
  - case_decide; [|done]. intros Hk. exists 0, st. split; [lia|done].
  - destruct (body st _) as [m'|] eqn:Hb.
    + intros [= ->]. apply Hbody in Hb as (mid & HR & Hloop).
      apply IH in Hloop as (n & st' & Hn & Hit & Hk).
      exists (S n), st'. split; [lia|]. split; [|done]. simpl. eauto.
    + case_decide; [|done]. intros Hk. exists 0, st. split; [lia|done].
Qed.

Lemma rep_loop_complete :
  (forall st k',
     body st k' = None -> forall st', R st st' -> k' st' = None) ->
  forall fuel lo st,
    rep_loop body k fuel lo st = None ->
    forall n st', lo <= n <= fuel -> iter n R st st' -> k st' = None.
Proof.
  intros Hbody. induction fuel as [|fuel IH]; intros lo st; simpl.
  - case_decide; [|intros; lia]. intros Hk n st' Hn.
    assert (n = 0) as -> by lia. simpl. by intros ->.
  - destruct (body st _) as [m'|] eqn:Hb; [done|].
    intros Hk [|n] st' Hn; simpl.
    + intros ->. case_decide; [done|lia].
    + intros (mid & HR & Hit).
      specialize (Hbody _ _ Hb _ HR). simpl in Hbody.
      eapply IH; [exact Hbody| |exact Hit]. lia.
Qed.
End RepLoop.

(** The matcher finds a match exactly when the pattern has one that the
    continuation accepts. *)
Lemma exec_spec ic r : forall st k,
  (forall m, exec ic r st k = Some m ->
             exists st', matches ic r st st' /\ k st' = Some m) /\
  (exec ic r st k = None ->
   forall st', matches ic r st st' -> k st' = None).
Proof.
  induction r as [|c| |neg rs|r1 IH1 r2 IH2|r1 IH1 r2 IH2|lo hi r1 IH1
                 |r1 IH1| | |r1 IH1|c];
    intros st k; simpl.
  - split; [eauto|]. by intros ? ? ->.
  - destruct (eat _ st) as [st1|]; simpl; split; try done; eauto.
    by intros ? ? [= ->].
  - destruct (eat _ st) as [st1|]; simpl; split; try done; eauto.
    by intros ? ? [= ->].
  - destruct (eat _ st) as [st1|]; simpl; split; try done; eauto.
    by intros ? ? [= ->].
  - split.
    + intros m H. apply IH1 in H as (mid & H1 & H).
      apply IH2 in H as (st' & H2 & H). eauto.
    + intros H st' (mid & H1 & H2).
      apply IH1 with (st' := mid) in H; [|done]. by eapply IH2 in H.
  - destruct (exec ic r1 st k) as [m'|] eqn:H1; split.
    + intros m [= ->]. apply IH1 in H1 as (st' & ? & ?). eauto.
    + done.
    + intros m H. apply IH2 in H as (st' & ? & ?). eauto.
    + intros H st' [H'|H']; [by eapply IH1 in H1|by eapply IH2 in H].
  - split.
    + intros m H.
      apply (rep_loop_sound _ (matches ic r1)) in H as (n & st' & ? & ? & ?);
        [eauto|]. intros; by apply IH1.
    + intros H st' (n & Hn & Hit).
      eapply (rep_loop_complete _ (matches ic r1)); [|exact H|exact Hn|exact Hit].
      intros st0 k' H0. by apply IH1.
  - split.
    + intros m H. apply IH1 in H as (mid & ? & ?). eauto.
    + intros H st' (mid & H1 & ->). by eapply IH1 in H.
  - destruct (prev st) eqn:Hp; split; try done; eauto.
    * by intros _ st' [? _].
    * by intros ? ? [_ ->].
  - destruct (at_eol st) eqn:He; split; try done; eauto.
    * by intros ? ? [_ ->].
    * by intros _ st' [? _].
  - destruct (exec ic r1 st Some) as [m'|] eqn:H1; split; try done.
    + intros _ st' [Hno _]. apply IH1 in H1 as (mid & ? & _). by destruct (Hno mid).
    + intros m Hk. exists st. split; [|done]. split; [|done].
      intros mid Hmid. by eapply IH1 in H1.
    + by intros ? ? [_ ->].
  - destruct (prev st) as [d|] eqn:Hp; [destruct (Chr.eqb_ci ic c d) eqn:Hd|];
      split; try done.
    + intros _ st' [Hno _]. specialize (Hno d eq_refl). congruence.
    + intros m Hk. exists st. split; [|done]. split; [|done].
      intros d' [= <-]. done.
    + by intros ? ? [_ ->].
    + intros m Hk. exists st. split; [|done]. split; [|done]. done.
    + by intros ? ? [_ ->].
Qed.

Lemma re_match_Some ic r s m :
  re_match ic r s = Some m -> matches ic r (start s) m.
Proof.
  intros H. apply exec_spec in H as (st' & ? & [= ->]). done.
Qed.

Lemma re_match_None ic r s :
  re_match ic r s = None <-> forall st', ~ matches ic r (start s) st'.
Proof.
  split.
  - intros H st' Hm. by eapply exec_spec in H.
  - intros H. destruct (re_match ic r s) as [m|] eqn:Hr; [|done].
    apply re_match_Some in Hr. by destruct (H m).
Qed.

(** *** Group 1 of a pattern *)

Lemma eat_cap p st st' : eat p st = Some st' -> cap st' = cap st.
Proof.
  unfold eat. destruct (rest st) as [|c s]; [done|].
  destruct (p c); [|done]. by intros [= <-].
Qed.

Lemma iter_keeps_cap (R : state -> state -> Prop) n :
  (forall a b, R a b -> is_Some (cap a) -> is_Some (cap b)) ->
  forall a b, iter n R a b -> is_Some (cap a) -> is_Some (cap b).
Proof.
  intros HR. induction n as [|n IH]; intros a b; simpl.
  - by intros ->.
  - intros (mid & Hab & Hit) Ha. eapply IH; [exact Hit|]. by eapply HR.
Qed.

(** A match leaves group 1 set when the pattern sets it on every path, or
    when it was set before. *)
Lemma matches_sets_cap ic r : forall st st',
  matches ic r st st' ->
  sets_group r = true \/ is_Some (cap st) ->
  is_Some (cap st').
Proof.
  induction r as [|c| |neg rs|r1 IH1 r2 IH2|r1 IH1 r2 IH2|lo hi r1 IH1
                 |r1 IH1| | |r1 IH1|c];
    intros st st'; simpl.
  - intros -> [?|?]; done.
  - intros ->%eat_cap [?|?]; done.
  - intros ->%eat_cap [?|?]; done.
  - intros ->%eat_cap [?|?]; done.
  - intros (mid & H1 & H2) [[Hs|Hs]%orb_true_iff|Hc].
    + eapply IH2; [exact H2|]. right. eapply IH1; [exact H1|]. by left.
    + eapply IH2; [exact H2|]. by left.
    + eapply IH2; [exact H2|]. right. eapply IH1; [exact H1|]. by right.
  - intros [H|H] [[Hs1 Hs2]%andb_true_iff|Hc].
    + eapply IH1; [exact H|]. by left.
    + eapply IH1; [exact H|]. by right.
    + eapply IH2; [exact H|]. by left.
    + eapply IH2; [exact H|]. by right.
  - intros (n & Hn & Hit) Hor.
    assert (forall a b, matches ic r1 a b -> is_Some (cap a) ->
                        is_Some (cap b)) as Hkeep.
    { intros a b Hab Ha. eapply IH1; [exact Hab|]. by right. }
    destruct Hor as [[Hlo%bool_decide_eq_true Hs]%andb_true_iff|Hc].
    + destruct n as [|n]; [lia|]. simpl in Hit.
      destruct Hit as (mid & Hab & Hit).
      eapply iter_keeps_cap; [exact Hkeep|exact Hit|].
      eapply IH1; [exact Hab|]. by left.
    + eapply iter_keeps_cap; [exact Hkeep|exact Hit|done].
  - intros (mid & _ & ->) _. simpl. eauto.
  - intros [_ ->] [?|?]; done.
  - intros [_ ->] [?|?]; done.
  - intros [_ ->] [?|?]; done.
  - intros [_ ->] [?|?]; done.
Qed.

Lemma valid_sets_group r : valid r = true -> sets_group r = true.
Proof. unfold valid. by intros [[_ ?]%andb_true_iff _]%andb_true_iff. Qed.

(** Group 1 has taken part in every match of a pattern: [match.group(1)]
    at line 103 is a string. *)
Lemma pattern_group_set ic (p : pattern) s m :
  re_match ic p s = Some m -> cap m = Some (group1 m).
Proof.
  intros Hm%re_match_Some.
  destruct (matches_sets_cap ic p _ _ Hm) as [g Hg].
  { left. apply valid_sets_group, pattern_valid. }
  unfold group1. by rewrite Hg.
Qed.

End ReFacts.

(** ** Host names and [DOMAIN_REGEX] *)

Module DomainFacts.
Import Re ReFacts.


Lemma str_app_cons c (a b : string) : String c a +:+ b = String c (a +:+ b).
Proof. reflexivity. Qed.

Lemma str_app_assoc (a b c : string) : (a +:+ b) +:+ c = a +:+ (b +:+ c).
Proof.
  induction a as [|x a IH]; [done|]. by rewrite !str_app_cons, IH.
Qed.

Lemma str_app_length (a b : string) :
  String.length (a +:+ b) = String.length a + String.length b.
Proof.
  induction a as [|x a IH]; [done|]. rewrite str_app_cons. simpl.
  by rewrite IH.
Qed.

Lemma last_char_cons c (w : string) :
  last_char (String c w) = Some (default c (last_char w)).
Proof.
  revert c. induction w as [|d w IH]; intros c; [done|].
  change (last_char (String c (String d w))) with (last_char (String d w)).
  by rewrite IH.
Qed.

Lemma between_hyphen c : Chr.between "-" "-" c = Ascii.eqb c "-".
Proof. destruct c as [[] [] [] [] [] [] [] []]; reflexivity. Qed.

Lemma label_class c :
  in_class false false [("A", "Z"); ("a", "z"); ("0", "9"); ("-", "-")]%char c
  = label_char c.
Proof.
  unfold in_class, in_ranges, label_char, Chr.is_alpha, Chr.is_upper,
    Chr.is_lower, Chr.is_digit. simpl. rewrite between_hyphen.
  by destruct (Chr.between "A" "Z" c), (Chr.between "a" "z" c),
    (Chr.between "0" "9" c), (Ascii.eqb c "-").
Qed.

Lemma alpha_class c :
  in_class false false [("A", "Z"); ("a", "z")]%char c = Chr.is_alpha c.
Proof.
  unfold in_class, in_ranges, Chr.is_alpha, Chr.is_upper, Chr.is_lower.
  simpl. by destruct (Chr.between "A" "Z" c), (Chr.between "a" "z" c).
Qed.

Lemma eat_Some p st st' :
  eat p st = Some st' <->
  exists c, p c = true /\ rest st = String c (rest st') /\
            prev st' = Some c /\ cap st' = cap st.
Proof.
  unfold eat. destruct st as [pv [|c s] cp]; simpl.
  - split; [done|]. by intros (c & _ & ? & _).
  - destruct (p c) eqn:Hp.
    + split.
      * intros [= <-]. by exists c.
      * intros (c' & _ & [= <- Hr] & Hpv & Hc). destruct st'. simpl in *.
        by subst.
    + split; [done|]. intros (c' & Hp' & [= <- _] & _). congruence.
Qed.

(** A run of [n] characters of one class. *)
Lemma iter_eat_sound p n st st' :
  iter n (fun a b => eat p a = Some b) st st' ->
  exists w, String.length w = n /\ all_chars p w = true /\
            rest st = w +:+ rest st' /\ cap st' = cap st /\
            prev st' = from_option Some (prev st) (last_char w).
Proof.
  revert st. induction n as [|n IH]; intros st; simpl.
  - intros ->. by exists "".
  - intros (mid & (c & Hc & Hr & Hp & Hcap)%eat_Some & Hit).
    apply IH in Hit as (w & Hlen & Hall & Hr' & Hcap' & Hp').
    exists (String c w). rewrite str_app_cons, last_char_cons. simpl.
    rewrite Hlen, Hc, Hall, Hr, Hr'.
    repeat split; try done; [congruence|].
    rewrite Hp', Hp. by destruct (last_char w).
Qed.

Lemma iter_eat_complete p w st s :
  all_chars p w = true -> rest st = w +:+ s ->
  exists st', iter (String.length w) (fun a b => eat p a = Some b) st st' /\
              rest st' = s /\
              prev st' = from_option Some (prev st) (last_char w).
Proof.
  revert st. induction w as [|c w IH]; intros st.
  - intros _ Hr. exists st. by rewrite Hr.
  - rewrite str_app_cons, last_char_cons. simpl.
    intros [Hc Hall]%andb_true_iff Hr.
    destruct (IH {| prev := Some c; rest := w +:+ s; cap := cap st |})
      as (st' & Hit & Hr' & Hp'); [done..|].
    exists st'. split; [|split; [done|]].
    + eexists. split; [|exact Hit]. apply eat_Some. by exists c.
    + rewrite Hp'. simpl. by destruct (last_char w).
Qed.

Lemma all_chars_ext p q (w : string) :
  (forall c, p c = q c) -> all_chars p w = all_chars q w.
Proof. intros H. induction w as [|c w IH]; simpl; [done|]. by rewrite H, IH. Qed.

Lemma dotted_length labels :
  List.length labels <= String.length (dotted labels).
Proof.
  induction labels as [|l ls IH]; simpl; [done|].
  rewrite !str_app_length. simpl. lia.
Qed.

Lemma domain_label_sound a b :
  matches false DOMAIN_LABEL a b ->
  exists l, is_label l = true /\ rest a = l +:+ String "." (rest b) /\
            prev b = Some "."%char.
Proof.
  intros (mid & Hbody & ->). simpl in Hbody.
  destruct Hbody as (m1 & [Hna ->] & m2 & (n & Hn & Hit) & m3 & [Hnb ->]
                     & Hdot).
  apply iter_eat_sound in Hit as (w & Hlen & Hall & Hr & _ & Hp).
  apply eat_Some in Hdot as (c & Hc & Hr2 & Hp2 & _).
  apply Ascii.eqb_eq in Hc as <-.
  exists w. simpl. rewrite Hp2, Hr, Hr2. split; [|done].
  unfold is_label. rewrite Hlen.
  rewrite bool_decide_eq_true_2 by (simpl in Hn; lia).
  rewrite (all_chars_ext _ _ _ label_class) in Hall. rewrite Hall. simpl.
  destruct w as [|c0 w]; [simpl in Hlen; lia|].
  apply andb_true_iff. split; apply negb_true_iff, bool_decide_eq_false.
  - simpl. intros [= ->]. eapply Hna. apply eat_Some.
    eexists. split; [apply Ascii.eqb_refl|]. rewrite Hr, str_app_cons.
    instantiate (1 := State (Some "-"%char) _ (cap a)). done.
  - intros Hl. rewrite Hl in Hp. simpl in Hp.
    specialize (Hnb _ Hp). by vm_compute in Hnb.
Qed.

Lemma domain_label_complete l a s :
  is_label l = true -> rest a = l +:+ String "." s ->
  exists b, matches false DOMAIN_LABEL a b /\ rest b = s /\
            prev b = Some "."%char.
Proof.
  unfold is_label.
  intros [[[Hlen%bool_decide_eq_true Hall]%andb_true_iff
             Hfirst%negb_true_iff%bool_decide_eq_false]%andb_true_iff
            Hlast%negb_true_iff%bool_decide_eq_false]%andb_true_iff Hr.
  rewrite <- (all_chars_ext _ _ _ label_class) in Hall.
  destruct (iter_eat_complete _ l a _ Hall Hr) as (m2 & Hit & Hr2 & Hp2).
  set (mid := {| prev := Some "."%char; rest := s; cap := cap m2 |}).
  exists (set_cap a mid). split; [|done].
  exists mid. split; [|done]. cbn [matches Cat].
  exists a. split.
  { split; [|done]. intros x (c & Hc & Hx & _)%eat_Some.
    apply Ascii.eqb_eq in Hc as <-. rewrite Hr in Hx.
    destruct l as [|c0 l]; [simpl in Hlen; lia|].
    rewrite str_app_cons in Hx. injection Hx as -> _. by apply Hfirst. }
  exists m2. split; [by exists (String.length l)|].
  exists m2. split.
  { split; [|done]. intros d Hd. unfold Chr.eqb_ci.
    apply Ascii.eqb_neq. intros <-.
    rewrite Hd in Hp2. destruct (last_char l) as [x|] eqn:Hl.
    - simpl in Hp2. injection Hp2 as <-. by apply Hlast.
    - destruct l as [|c0 l]; [simpl in Hlen; lia|].
      by rewrite last_char_cons in Hl. }
  apply eat_Some. exists "."%char. by rewrite Hr2.
Qed.

Lemma labels_sound n a b :
  iter n (matches false DOMAIN_LABEL) a b ->
  exists labels, List.length labels = n /\
                 Forall (fun l => is_label l = true) labels /\
                 rest a = dotted labels +:+ rest b.
Proof.
  revert a. induction n as [|n IH]; intros a.
  - intros ->. by exists [].
  - intros (mid & (l & Hl & Hr & _)%domain_label_sound & Hit).
    apply IH in Hit as (ls & Hlen & Hall & Hr').
    exists (l :: ls). simpl. rewrite Hlen. split; [done|].
    split; [by constructor|]. rewrite Hr, Hr'.
    by rewrite !str_app_assoc.
Qed.

Lemma labels_complete labels a s :
  Forall (fun l => is_label l = true) labels ->
  rest a = dotted labels +:+ s ->
  exists b, iter (List.length labels) (matches false DOMAIN_LABEL) a b /\
            rest b = s /\ (labels ≠ [] -> prev b = Some "."%char).
Proof.
  intros Hall. revert a. induction Hall as [|l ls Hl _ IH]; intros a Hr.
  - exists a. by rewrite Hr.
  - simpl in Hr. rewrite !str_app_assoc in Hr.
    destruct (domain_label_complete l a _ Hl Hr) as (mid & Hm & Hr' & Hp).
    destruct (IH mid Hr') as (b & Hit & Hb & Hpb).
    exists b. split; [by exists mid|]. split; [done|].
    intros _. destruct ls as [|l' ls']; [|by apply Hpb].
    simpl in Hit. by subst.
Qed.

Lemma tld_sound a b :
  matches false DOMAIN_TLD a b ->
  exists x y tail, Chr.is_alpha x = true /\ Chr.is_alpha y = true /\
                   rest a = String x (String y tail).
Proof.
  intros (n & Hn & Hit). simpl in Hn.
  apply iter_eat_sound in Hit as (w & Hlen & Hall & Hr & _).
  rewrite (all_chars_ext _ _ _ alpha_class) in Hall.
  destruct w as [|x [|y w]]; simpl in Hlen; [lia..|].
  simpl in Hall. apply andb_true_iff in Hall as [Hx Hall].
  apply andb_true_iff in Hall as [Hy _].
  exists x, y, (w +:+ rest b). by rewrite Hr.
Qed.

Lemma tld_complete a x y tail :
  Chr.is_alpha x = true -> Chr.is_alpha y = true ->
  rest a = String x (String y tail) ->
  exists b, matches false DOMAIN_TLD a b.
Proof.
  intros Hx Hy Hr.
  destruct (iter_eat_complete
              (in_class false false [("A", "Z"); ("a", "z")]%char)
              (String x (String y "")) a tail) as (b & Hit & _).
  { cbn [all_chars]. by rewrite !alpha_class, Hx, Hy. }
  { by rewrite Hr. }
  exists b, 2. split; [simpl; lia|done].
Qed.

Lemma domain_sound name :
  (exists st', matches false DOMAIN_REGEX (start name) st') ->
  hostname_prefix name.
Proof.
  intros (st' & Hm). simpl in Hm.
  destruct Hm as (m1 & [_ ->] & m2 & (n & Hn & Hit) & Htld).
  apply labels_sound in Hit as (labels & Hlen & Hall & Hr).
  apply tld_sound in Htld as (x & y & tail & Hx & Hy & Hr2).
  exists labels, x, y, tail. split.
  { intros ->. simpl in Hlen. lia. }
  simpl in Hr. by rewrite Hr, Hr2.
Qed.

Lemma domain_complete name :
  hostname_prefix name ->
  exists st', matches false DOMAIN_REGEX (start name) st'.
Proof.
  intros (labels & x & y & tail & Hne & Hall & Hx & Hy & ->).
  destruct (labels_complete labels
              (start (dotted labels +:+ String x (String y tail)))
              (String x (String y tail)) Hall eq_refl)
    as (m2 & Hit & Hr & _).
  destruct (tld_complete m2 x y tail Hx Hy Hr) as (b & Hb).
  exists b. simpl. exists (start (dotted labels +:+ String x (String y tail))).
  split; [done|]. exists m2. split; [|done].
  exists (List.length labels). split; [|done]. split.
  - destruct labels; [done|simpl; lia].
  - simpl. rewrite str_app_length. pose proof (dotted_length labels). lia.
Qed.

Lemma search_from_unfold ic r p s :
  search_from ic r p s =
  match exec ic r {| prev := p; rest := s; cap := None |} Some with
  | Some m => Some m
  | None =>
      match s with
      | "" => None
      | String c s' => search_from ic r (Some c) s'
      end
  end.
Proof. by destruct s. Qed.

(** Without [re.MULTILINE], [^] matches at the start only. *)
Lemma search_after_start s c :
  search_from false DOMAIN_REGEX (Some c) s = None.
Proof.
  revert c. induction s as [|d s IH]; intros c;
    rewrite search_from_unfold; [done|].
  change (exec false DOMAIN_REGEX _ Some) with (@None state). apply IH.
Qed.

(** [re.search(DOMAIN_REGEX, name)] finds a match exactly for the names
    that begin like a host name. *)
Lemma search_domain name :
  is_Some (re_search false DOMAIN_REGEX name) <-> hostname_prefix name.
Proof.
  unfold re_search. rewrite search_from_unfold.
  change {| prev := None; rest := name; cap := None |} with (start name).
  split.
  - destruct (exec false DOMAIN_REGEX (start name) Some) as [m|] eqn:He.
    + intros _. apply domain_sound.
      apply exec_spec in He as (st' & ? & _). eauto.
    + destruct name as [|c s]; [by intros [? ?]|].
      rewrite search_after_start. by intros [? ?].
  - intros (st' & Hst)%domain_complete.
    destruct (exec false DOMAIN_REGEX (start name) Some) as [m|] eqn:He; [eauto|].
    eapply exec_spec in He; [|exact Hst]. done.
Qed.

End DomainFacts.

(** ** The extraction engine *)

Section EngineFacts.
Variable cfg : config.

Lemma match_line_app path line ps1 ps2 v :
  match_line path line (ps1 ++ ps2) v =
  (let '(broke, v1) := match_line path line ps1 v in
   if broke then (true, v1) else match_line path line ps2 v1).
Proof.
  revert v. induction ps1 as [|[f p] ps1 IH]; intros v; simpl; [done|].
  destruct (Re.re_match true (Re.pattern_re p) line); [case_decide|]; by rewrite ?IH.
Qed.

(** What one run of the inner loop may change. *)
Lemma match_line_effect path line ps v :
  let '(broke, v') := match_line path line ps v in
  fallback_field_lines v' = fallback_field_lines v /\
  (if broke
   then exists f p m, (f, p) ∈ ps /\ Re.re_match true (Re.pattern_re p) line = Some m /\
          (f ∉ found_fields v) /\
          row v' = (<[f := Re.group1 m]> (row v)) /\
          found_fields v' = {[f]} ∪ found_fields v
   else row v' = row v /\ found_fields v' = found_fields v).
Proof.
  revert v. induction ps as [|[f p] ps IH]; intros v; simpl; [done|].
  destruct (Re.re_match true (Re.pattern_re p) line) as [m|] eqn:Hm.
  - case_decide as Hf.
    + specialize (IH (print (duplicate_warning f path) v)).
      destruct (match_line _ _ ps _) as [[] v']; simpl in *; [|done].
      destruct IH as (? & f' & p' & m' & ? & ? & ? & ? & ?).
      split; [done|]. exists f', p', m'.
      repeat split; try done. by apply list_elem_of_further.
    + split; [done|]. exists f, p, m.
      repeat split; try done. by apply list_elem_of_here.
  - specialize (IH v). destruct (match_line _ _ ps _) as [[] v']; [|done].
    destruct IH as (? & f' & p' & m' & ? & ? & ? & ? & ?).
    split; [done|]. exists f', p', m'.
    repeat split; try done. by apply list_elem_of_further.
Qed.

(** A line no pattern claims runs through the whole inner loop. *)
Lemma match_line_unclaimed path line ps v :
  claimed ps (found_fields v) line = false ->
  match_line path line ps v =
  (false, Vars (row v) (found_fields v) (fallback_field_lines v)
               (stdout v ++ dup_warnings path line ps)).
Proof.
  revert v. induction ps as [|[f p] ps IH]; intros v; simpl.
  - intros _. rewrite app_nil_r. by destruct v.
  - intros [H1 H2]%orb_false_elim.
    destruct (Re.re_match true (Re.pattern_re p) line) as [m|] eqn:Hm.
    + rewrite bool_decide_eq_true_2 in H1 by eauto. simpl in H1.
      apply bool_decide_eq_false in H1. apply dec_stable in H1.
      rewrite decide_True by done. rewrite IH by done. simpl.
      by rewrite <- app_assoc.
    + by rewrite IH.
Qed.

(** The first pattern that claims a line gets it. *)
Lemma match_line_first path line pre f p post v m :
  claimed pre (found_fields v) line = false ->
  Re.re_match true (Re.pattern_re p) line = Some m ->
  f ∉ found_fields v ->
  match_line path line (pre ++ (f, p) :: post) v =
  (true, Vars (<[f := Re.group1 m]> (row v)) ({[f]} ∪ found_fields v)
              (fallback_field_lines v)
              (stdout v ++ dup_warnings path line pre)).
Proof.
  intros Hpre Hm Hf. rewrite match_line_app, match_line_unclaimed by done.
  simpl. rewrite Hm. by rewrite decide_False.
Qed.

Lemma match_line_broke path line ps v :
  (match_line path line ps v).1 = claimed ps (found_fields v) line.
Proof.
  revert v. induction ps as [|[f p] ps IH]; intros v; simpl; [done|].
  destruct (Re.re_match true (Re.pattern_re p) line) as [m|] eqn:Hm.
  - rewrite bool_decide_eq_true_2 by eauto. simpl. case_decide.
    + rewrite bool_decide_eq_false_2 by tauto. by rewrite IH.
    + by rewrite bool_decide_eq_true_2.
  - rewrite bool_decide_eq_false_2; [by rewrite IH|].
    by intros [? ?].
Qed.

Lemma process_line_unclaimed path line v :
  claimed (FIELD_PATTERNS cfg) (found_fields v) line = false ->
  process_line cfg path v line =
  Vars (row v) ({[FALLBACK_FIELD cfg]} ∪ found_fields v)
       (fallback_field_lines v ++ [line])
       (stdout v ++ dup_warnings path line (FIELD_PATTERNS cfg)).
Proof.
  intros H. unfold process_line. by rewrite match_line_unclaimed.
Qed.

Lemma process_line_claimed path line v :
  claimed (FIELD_PATTERNS cfg) (found_fields v) line = true ->
  exists f p m,
    (f, p) ∈ FIELD_PATTERNS cfg /\ Re.re_match true (Re.pattern_re p) line = Some m /\
    (f ∉ found_fields v) /\
    row (process_line cfg path v line) = (<[f := Re.group1 m]> (row v)) /\
    found_fields (process_line cfg path v line) = {[f]} ∪ found_fields v /\
    fallback_field_lines (process_line cfg path v line)
    = fallback_field_lines v.
Proof.
  intros H. unfold process_line.
  pose proof (match_line_effect path line (FIELD_PATTERNS cfg) v) as He.
  pose proof (match_line_broke path line (FIELD_PATTERNS cfg) v) as Hb.
  destruct (match_line _ _ _ _) as [b v']. simpl in Hb. subst b.
  rewrite H in *. destruct He as (? & f & p & m & ? & ? & ? & ? & ?).
  exists f, p, m. done.
Qed.


(** *** Keys of the row and found fields *)

Lemma process_line_found path v line :
  found_fields v ⊆ found_fields (process_line cfg path v line) /\
  found_fields (process_line cfg path v line) ⊆
    found_fields v ∪ list_to_set (FIELD_PATTERNS cfg).*1
    ∪ {[FALLBACK_FIELD cfg]}.
Proof.
  destruct (claimed (FIELD_PATTERNS cfg) (found_fields v) line) eqn:Hc.
  - apply process_line_claimed with (path := path) in Hc
      as (f & p & m & Hin & _ & Hf & _ & -> & _).
    assert (f ∈ (list_to_set (FIELD_PATTERNS cfg).*1 : gset string)).
    { apply elem_of_list_to_set, list_elem_of_fmap. by exists (f, p). }
    clear Hin. set (P := list_to_set _) in *. clearbody P. set_solver.
  - rewrite process_line_unclaimed by done. simpl. clear Hc.
    set (P := list_to_set _). clearbody P. set_solver.
Qed.

Lemma foldl_process_line_found path lines v :
  found_fields v ⊆ found_fields (foldl (process_line cfg path) v lines) /\
  found_fields (foldl (process_line cfg path) v lines) ⊆
    found_fields v ∪ list_to_set (FIELD_PATTERNS cfg).*1
    ∪ {[FALLBACK_FIELD cfg]}.
Proof.
  revert v. induction lines as [|l ls IH]; intros v; simpl; [set_solver|].
  destruct (IH (process_line cfg path v l)) as [H1 H2].
  destruct (process_line_found path v l) as [H3 H4].
  set (P := list_to_set _) in *. clearbody P. split.
  - by etrans.
  - etrans; [exact H2|]. set_solver.
Qed.

(** The keys of the row are the keys [keys0] it began with and the found
    fields, but for the fallback field, which is found before line 113
    makes it a key. *)
Lemma process_line_keys (keys0 : gset string) path v line :
  dom (row v) ∪ found_fields v ∩ {[FALLBACK_FIELD cfg]}
  = keys0 ∪ found_fields v ->
  dom (row (process_line cfg path v line))
  ∪ found_fields (process_line cfg path v line) ∩ {[FALLBACK_FIELD cfg]}
  = keys0 ∪ found_fields (process_line cfg path v line).
Proof.
  intros Hv.
  destruct (claimed (FIELD_PATTERNS cfg) (found_fields v) line) eqn:Hc.
  - apply process_line_claimed with (path := path) in Hc
      as (f & p & m & _ & _ & _ & -> & -> & _).
    rewrite dom_insert_L. apply set_eq. intros x.
    assert (x ∈ dom (row v) ∪ found_fields v ∩ {[FALLBACK_FIELD cfg]}
            <-> x ∈ keys0 ∪ found_fields v) as Hx by by rewrite Hv.
    clear Hv. set_solver.
  - rewrite process_line_unclaimed by done. simpl. clear Hc.
    apply set_eq. intros x.
    assert (x ∈ dom (row v) ∪ found_fields v ∩ {[FALLBACK_FIELD cfg]}
            <-> x ∈ keys0 ∪ found_fields v) as Hx by by rewrite Hv.
    clear Hv. set_solver.
Qed.

Lemma foldl_process_line_keys (keys0 : gset string) path lines v :
  dom (row v) ∪ found_fields v ∩ {[FALLBACK_FIELD cfg]}
  = keys0 ∪ found_fields v ->
  let v' := foldl (process_line cfg path) v lines in
  dom (row v') ∪ found_fields v' ∩ {[FALLBACK_FIELD cfg]}
  = keys0 ∪ found_fields v'.
Proof.
  revert v. induction lines as [|l ls IH]; intros v Hv; simpl; [done|].
  by apply IH, process_line_keys.
Qed.

(** After line 113 the row has the keys it started with and the found
    fields. *)
Lemma extract_dom path row0 lines :
  dom (row (extract cfg path row0 lines))
  = dom row0 ∪ found_fields (extract cfg path row0 lines).
Proof.
  unfold extract.
  destruct (first_line cfg lines (Vars row0 ∅ [] [])) as [ls v0] eqn:H0.
  assert (dom (row v0) ∪ found_fields v0 ∩ {[FALLBACK_FIELD cfg]}
          = dom row0 ∪ found_fields v0) as Hv0.
  { unfold first_line in H0.
    destruct lines as [|l lines'], (FIRSTLINE_IS_LOGIN_PASSWORD cfg);
      injection H0 as <- <-; simpl; rewrite ?dom_insert_L; set_solver. }
  apply (foldl_process_line_keys _ path ls) in Hv0. simpl in Hv0.
  revert Hv0. generalize (foldl (process_line cfg path) v0 ls). intros v Hv.
  unfold populate_fallback. case_decide as Hfb; simpl.
  - rewrite dom_insert_L. rewrite <- Hv. set_solver.
  - rewrite <- Hv. set_solver.
Qed.

Lemma extract_found path row0 lines :
  found_fields (extract cfg path row0 lines)
  ⊆ {["login_password"]} ∪ list_to_set (FIELD_PATTERNS cfg).*1
    ∪ {[FALLBACK_FIELD cfg]}.
Proof.
  unfold extract.
  destruct (first_line cfg lines (Vars row0 ∅ [] [])) as [ls v0] eqn:H0.
  assert (found_fields v0 ⊆ {["login_password"]}) as Hv0.
  { unfold first_line in H0.
    destruct lines as [|l lines'], (FIRSTLINE_IS_LOGIN_PASSWORD cfg);
      injection H0 as <- <-; simpl; set_solver. }
  destruct (foldl_process_line_found path ls v0) as [_ Hs].
  set (P := list_to_set _) in *. clearbody P.
  unfold populate_fallback. case_decide; simpl; set_solver.
Qed.

(** *** Values of found fields *)

Lemma process_line_found_kept path v line k :
  k ∈ found_fields v ->
  row (process_line cfg path v line) !! k = row v !! k.
Proof.
  intros Hk.
  destruct (claimed (FIELD_PATTERNS cfg) (found_fields v) line) eqn:Hc.
  - apply process_line_claimed with (path := path) in Hc
      as (f & p & m & _ & _ & Hf & -> & _ & _).
    apply lookup_insert_ne. by intros ->.
  - by rewrite process_line_unclaimed.
Qed.

Lemma foldl_process_line_found_kept path lines v k :
  k ∈ found_fields v ->
  row (foldl (process_line cfg path) v lines) !! k = row v !! k.
Proof.
  revert v. induction lines as [|l ls IH]; intros v Hk; simpl; [done|].
  rewrite IH.
  - by apply process_line_found_kept.
  - by apply process_line_found.
Qed.

(** *** The fallback field *)




Section Fallback.
Hypothesis fallback_no_pattern :
  FALLBACK_FIELD cfg ∉ (FIELD_PATTERNS cfg).*1.


End Fallback.

(** *** Independence from the initial row *)

(** Two runs that differ in the row only, and agree on the found fields
    other than the fallback field (whose value is set at line 113). *)
Lemma match_line_row_irrelevant path line ps v w :
  found_fields v = found_fields w ->
  fallback_field_lines v = fallback_field_lines w ->
  stdout v = stdout w ->
  (forall k, k ∈ found_fields v -> k ≠ FALLBACK_FIELD cfg ->
             row v !! k = row w !! k) ->
  let bv := match_line path line ps v in
  let bw := match_line path line ps w in
  bv.1 = bw.1 /\
  found_fields bv.2 = found_fields bw.2 /\
  fallback_field_lines bv.2 = fallback_field_lines bw.2 /\
  stdout bv.2 = stdout bw.2 /\
  (forall k, k ∈ found_fields bv.2 -> k ≠ FALLBACK_FIELD cfg ->
             row bv.2 !! k = row bw.2 !! k).
Proof.
  revert v w. induction ps as [|[f p] ps IH]; intros v w Hf Hl Ho Hr; simpl.
  - done.
  - destruct (Re.re_match true (Re.pattern_re p) line) as [m|]; [|by apply IH].
    rewrite <- Hf. case_decide as Hin.
    + apply IH; simpl; by rewrite ?Ho.
    + simpl. rewrite Hf, Hl, Ho. repeat split; try done.
      intros k Hk Hne. destruct (decide (k = f)) as [->|Hkf].
      * by rewrite !lookup_insert_eq.
      * rewrite !lookup_insert_ne by done. apply Hr; [|done].
        rewrite Hf. set_solver.
Qed.

Lemma process_line_row_irrelevant path line v w :
  found_fields v = found_fields w ->
  fallback_field_lines v = fallback_field_lines w ->
  stdout v = stdout w ->
  (forall k, k ∈ found_fields v -> k ≠ FALLBACK_FIELD cfg ->
             row v !! k = row w !! k) ->
  let v' := process_line cfg path v line in
  let w' := process_line cfg path w line in
  found_fields v' = found_fields w' /\
  fallback_field_lines v' = fallback_field_lines w' /\
  stdout v' = stdout w' /\
  (forall k, k ∈ found_fields v' -> k ≠ FALLBACK_FIELD cfg ->
             row v' !! k = row w' !! k).
Proof.
  intros Hf Hl Ho Hr. simpl. unfold process_line.
  pose proof (match_line_row_irrelevant path line (FIELD_PATTERNS cfg)
                v w Hf Hl Ho Hr) as H.
  destruct (match_line _ _ _ v) as [bv v1], (match_line _ _ _ w) as [bw w1].
  simpl in H. destruct H as (<- & Hf1 & Hl1 & Ho1 & Hr1).
  destruct bv; [done|]. simpl. rewrite Hf1, Hl1, Ho1.
  repeat split; try done.
  intros k Hk Hne. apply Hr1; [|done]. rewrite Hf1. set_solver.
Qed.

Lemma foldl_process_line_row_irrelevant path lines v w :
  found_fields v = found_fields w ->
  fallback_field_lines v = fallback_field_lines w ->
  stdout v = stdout w ->
  (forall k, k ∈ found_fields v -> k ≠ FALLBACK_FIELD cfg ->
             row v !! k = row w !! k) ->
  let v' := foldl (process_line cfg path) v lines in
  let w' := foldl (process_line cfg path) w lines in
  found_fields v' = found_fields w' /\
  fallback_field_lines v' = fallback_field_lines w' /\
  stdout v' = stdout w' /\
  (forall k, k ∈ found_fields v' -> k ≠ FALLBACK_FIELD cfg ->
             row v' !! k = row w' !! k).
Proof.
  revert v w. induction lines as [|l ls IH]; intros v w Hf Hl Ho Hr; simpl.
  - done.
  - by apply IH; apply process_line_row_irrelevant.
Qed.

(** The found fields, their values, the fallback lines and the printed
    lines do not depend on the row the extraction starts from. *)
Lemma extract_row_irrelevant path row0 row0' lines :
  let v := extract cfg path row0 lines in
  let w := extract cfg path row0' lines in
  found_fields v = found_fields w /\
  fallback_field_lines v = fallback_field_lines w /\
  stdout v = stdout w /\
  (forall k, k ∈ found_fields v -> row v !! k = row w !! k).
Proof.
  simpl. unfold extract.
  destruct (first_line cfg lines (Vars row0 ∅ [] [])) as [ls v0] eqn:Hv0.
  destruct (first_line cfg lines (Vars row0' ∅ [] [])) as [ls' w0] eqn:Hw0.
  assert (ls' = ls /\ found_fields v0 = found_fields w0 /\
          fallback_field_lines v0 = fallback_field_lines w0 /\
          stdout v0 = stdout w0 /\
          (forall k, k ∈ found_fields v0 -> k ≠ FALLBACK_FIELD cfg ->
                     row v0 !! k = row w0 !! k)) as (-> & Hf & Hl & Ho & Hr).
  { unfold first_line in Hv0, Hw0.
    destruct lines as [|l lines'], (FIRSTLINE_IS_LOGIN_PASSWORD cfg);
      injection Hv0 as <- <-; injection Hw0 as <- <-; simpl;
      repeat split; try done; try (intros k Hk; set_solver).
    intros k Hk _. assert (k = "login_password") as -> by set_solver.
    by rewrite !lookup_insert_eq. }
  pose proof (foldl_process_line_row_irrelevant path ls v0 w0 Hf Hl Ho Hr)
    as H.
  simpl in H. destruct H as (Hf1 & Hl1 & Ho1 & Hr1).
  unfold populate_fallback. rewrite <- Hf1.
  case_decide as Hfb; simpl; repeat split; try done.
  - intros k Hk. destruct (decide (k = FALLBACK_FIELD cfg)) as [->|Hne].
    + by rewrite !lookup_insert_eq, Hl1.
    + rewrite !lookup_insert_ne by done. by apply Hr1.
  - intros k Hk. apply Hr1; [done|]. by intros ->.
Qed.

(** *** The record assembler *)

Lemma complete_lookup row0 k :
  complete cfg row0 !! k =
  match row0 !! k with
  | Some x => Some x
  | None => if decide (k ∈ CSV_FIELDS cfg) then Some "" else None
  end.
Proof.
  unfold complete. revert row0.
  induction (CSV_FIELDS cfg) as [|f fs IH]; intros row0; cbn [foldl].
  - destruct (row0 !! k); [done|]. case_decide as H; [|done].
    by apply elem_of_nil in H.
  - rewrite IH. destruct (decide (k = f)) as [->|Hne].
    + destruct (decide (f ∈ dom row0)) as [Hf|Hf].
      * apply elem_of_dom in Hf as [x Hx]. by rewrite Hx.
      * rewrite lookup_insert_eq. apply not_elem_of_dom in Hf. rewrite Hf.
        rewrite decide_True; [done|]. apply list_elem_of_here.
    + assert ((k ∈ f :: fs) <-> (k ∈ fs)) as Hk.
      { rewrite elem_of_cons. naive_solver. }
      destruct (decide (f ∈ dom row0)); rewrite ?lookup_insert_ne by done;
        (destruct (row0 !! k); [done|]); repeat case_decide; tauto.
Qed.

Lemma complete_dom row0 :
  dom (complete cfg row0) = dom row0 ∪ list_to_set (CSV_FIELDS cfg).
Proof.
  apply set_eq. intros k.
  rewrite elem_of_union, !elem_of_dom, elem_of_list_to_set, complete_lookup.
  destruct (row0 !! k); [naive_solver|]. case_decide.
  - split; eauto.
  - split; [by intros [? ?]|]. intros [[? ?]|?]; done.
Qed.

End EngineFacts.

(** *** URI inference *)

Lemma _guess_uri_ok (r : gmap string string) name :
  r !! "name" = Some name ->
  _guess_uri r = Ok name \/ _guess_uri r = Ok "".
Proof.
  intros Hn. unfold _guess_uri. rewrite Hn.
  destruct (negb _); [by right|]. destruct (Re.re_search _ _ _); eauto.
Qed.

Lemma infer_uri_ok (r : gmap string string) :
  is_Some (r !! "login_uri") -> is_Some (r !! "name") ->
  exists r', infer_uri r = Ok r' /\ dom r' = dom r /\
    (forall k, k ≠ "login_uri" -> r' !! k = r !! k) /\
    (r !! "login_uri" ≠ Some "" -> r' = r).
Proof.
  intros [uri Hu] [name Hn]. unfold infer_uri. rewrite Hu.
  case_decide as He.
  - subst uri.
    assert (exists u, _guess_uri r = Ok u) as [u ->].
    { destruct (_guess_uri_ok r name Hn); eauto. }
    eexists. split; [done|]. split; [|split].
    + rewrite dom_insert_L. apply elem_of_dom_2 in Hu. set_solver.
    + intros k Hk. by rewrite lookup_insert_ne.
    + done.
  - exists r. repeat split; done.
Qed.

Lemma infer_uri_Ok (r r' : gmap string string) :
  infer_uri r = Ok r' ->
  (forall k, k ≠ "login_uri" -> r' !! k = r !! k) /\
  (r !! "login_uri" ≠ Some "" -> r' = r).
Proof.
  unfold infer_uri. destruct (r !! "login_uri") as [uri|]; [|done].
  case_decide as He.
  - subst uri. destruct (_guess_uri r) as [u|]; [|done]. intros [= <-].
    split; [|done]. intros k Hk. by rewrite lookup_insert_ne.
  - by intros [= <-].
Qed.

Lemma is_hostname_prefix name : is_hostname name -> hostname_prefix name.
Proof.
  intros (labels & tld & Hne & Hall & Hlen & Halpha & ->).
  destruct tld as [|a [|b tail]]; simpl in Hlen; [lia..|].
  simpl in Halpha. apply andb_true_iff in Halpha as [Ha Halpha].
  apply andb_true_iff in Halpha as [Hb _].
  by exists labels, a, b, tail.
Qed.

(** ** Splitting into lines *)

Lemma splitlines_from_cur cur s :
  cur ≠ "" -> Py.splitlines_from cur false s ≠ [].
Proof.
  revert cur. induction s as [|c s IH]; intros cur Hcur; simpl.
  - by rewrite decide_False.
  - destruct (Py.is_linebreak c); [done|]. apply IH. by destruct cur.
Qed.

(** Only the empty text has no lines. *)
Lemma splitlines_nil s : Py.splitlines s = [] <-> s = "".
Proof.
  split; [|by intros ->]. destruct s as [|c s]; [done|].
  unfold Py.splitlines. simpl. destruct (Py.is_linebreak c); [done|].
  intros H. by apply splitlines_from_cur in H.
Qed.

(** ** One file *)

Lemma parse_file_lines cfg base_dir f l ls :
  Py.splitlines (data f) = l :: ls ->
  parse_file cfg base_dir f
  = (stdout (extract cfg (path f) (init_row cfg base_dir f) (l :: ls)),
     infer_uri
       (complete cfg
          (row (extract cfg (path f) (init_row cfg base_dir f) (l :: ls))))).
Proof. intros Hl. unfold parse_file. by rewrite Hl. Qed.

(** With [login_uri] and [name] in the schema, lines 120-121 and 56 find
    their keys, and the file yields a row. *)
Lemma parse_file_returns cfg base_dir f l ls :
  Py.splitlines (data f) = l :: ls ->
  "login_uri" ∈ CSV_FIELDS cfg ->
  "name" ∈ CSV_FIELDS cfg ->
  exists r,
    parse_file cfg base_dir f
    = (stdout (extract cfg (path f) (init_row cfg base_dir f) (l :: ls)),
       Ok r).
Proof.
  intros Hl Huri Hname. rewrite (parse_file_lines _ _ _ _ _ Hl).
  set (v := extract _ _ _ _).
  destruct (infer_uri_ok (complete cfg (row v))) as (r & -> & _).
  - rewrite complete_lookup. destruct (row v !! "login_uri"); [eauto|].
    rewrite decide_True by done. eauto.
  - rewrite complete_lookup. destruct (row v !! "name"); [eauto|].
    rewrite decide_True by done. eauto.
  - by exists r.
Qed.

(** ** The configuration of [defaults.py] *)

Lemma defaults_init_row base_dir f :
  init_row defaults.cfg base_dir f
  = <["folder" := defaults.folder base_dir (path f) (data f)]>
      (<["name" := Py.basename (path f)]> (<["type" := "login"]> ∅)).
Proof. reflexivity. Qed.

Lemma defaults_init_dom base_dir f :
  dom (init_row defaults.cfg base_dir f) = {["type"; "name"; "folder"]}.
Proof. rewrite defaults_init_row, !dom_insert_L. set_solver. Qed.

Lemma defaults_patterns_set_group :
  forallb (fun fp => Re.valid (Re.pattern_re fp.2)) defaults.FIELD_PATTERNS = true.
Proof. reflexivity. Qed.

Lemma defaults_init_keys_in_schema :
  ({["type"; "name"; "folder"]} : gset string)
  ⊆ list_to_set defaults.CSV_FIELDS.
Proof. by_compute. Qed.

Lemma defaults_found_in_schema :
  ({["login_password"]} ∪ list_to_set (FIELD_PATTERNS defaults.cfg).*1
   ∪ {[FALLBACK_FIELD defaults.cfg]} : gset string)
  ⊆ list_to_set defaults.CSV_FIELDS.
Proof. by_compute. Qed.

Lemma defaults_uri_name_in_schema :
  ({["login_uri"; "name"]} : gset string) ⊆ list_to_set defaults.CSV_FIELDS.
Proof. by_compute. Qed.

(** C10.  An entry whose text has no lines yields the row of line 81: the
    keys [type], [name] and [folder] populated by [FIELD_DEFAULTS] and
    [FIELD_FUNCTIONS] and no other key; [login_uri] is absent whatever the
    name looks like, so URI inference has not run; one warning is
    printed. *)
Theorem C10_empty_entry_keeps_default_and_derived_keys
    (base_dir : string) (f : file) :
  Py.splitlines (data f) = [] ->
  exists r,
    parse_file defaults.cfg base_dir f = ([empty_warning (path f)], Ok r) /\
    dom r = {["type"; "name"; "folder"]} /\
    r !! "type" = Some "login" /\
    r !! "name" = Some (Py.basename (path f)) /\
    r !! "folder" = Some (defaults.folder base_dir (path f) (data f)) /\
    r !! "login_uri" = None.
Proof.
  intros Hl. exists (init_row defaults.cfg base_dir f).
  unfold parse_file. rewrite Hl. split; [done|].
  split; [apply defaults_init_dom|]. by rewrite defaults_init_row.
Qed.

Lemma C10_witness :
  exists r,
    parse_file defaults.cfg "/store" (File "/store/web/example.com" "")
    = ([empty_warning "/store/web/example.com"], Ok r) /\
    dom r = {["type"; "name"; "folder"]} /\
    r !! "type" = Some "login" /\
    r !! "name" = Some "example.com" /\
    r !! "folder" = Some "web" /\
    r !! "login_uri" = None.
Proof.
  apply (C10_empty_entry_keeps_default_and_derived_keys
           "/store" (File "/store/web/example.com" "")).
  reflexivity.
Defined.

(** C1, corrected.  An entry with a non-empty text yields a row whose keys
    are exactly the ten names of [CSV_FIELDS]; a field that is neither
    found in the content, nor a default or function-based field, nor
    [login_uri] (which line 121 may fill from the name) is the empty
    string. *)
Theorem C1_nonempty_entry_has_schema_keys (base_dir : string) (f : file) :
  data f ≠ "" ->
  exists out r,
    parse_file defaults.cfg base_dir f = (out, Ok r) /\
    dom r = list_to_set defaults.CSV_FIELDS /\
    forall k,
      k ∈ defaults.CSV_FIELDS ->
      k ∉ found_fields
            (extract defaults.cfg (path f) (init_row defaults.cfg base_dir f)
                     (Py.splitlines (data f))) ->
      k ∉ ["type"; "name"; "folder"; "login_uri"] ->
      r !! k = Some "".
Proof.
  intros Hd. unfold parse_file.
  destruct (Py.splitlines (data f)) as [|l ls] eqn:Hl.
  { by apply splitlines_nil in Hl. }
  set (v := extract _ _ _ (l :: ls)).
  pose proof (extract_dom defaults.cfg (path f)
                (init_row defaults.cfg base_dir f) (l :: ls)) as Hdom.
  pose proof (extract_found defaults.cfg (path f)
                (init_row defaults.cfg base_dir f) (l :: ls)) as Hfound.
  fold v in Hdom, Hfound. rewrite defaults_init_dom in Hdom.
  pose proof defaults_init_keys_in_schema as Hinit.
  pose proof defaults_found_in_schema as Hfs.
  pose proof defaults_uri_name_in_schema as Hun.
  pose proof (complete_dom defaults.cfg (row v)) as Hc.
  change (CSV_FIELDS defaults.cfg) with defaults.CSV_FIELDS in Hc.
  destruct (infer_uri_ok (complete defaults.cfg (row v)))
    as (r & Hr & Hrdom & Hrk & _).
  { apply elem_of_dom. rewrite Hc. clear -Hun. set_solver. }
  { apply elem_of_dom. rewrite Hc. clear -Hun. set_solver. }
  exists (stdout v), r. split; [by rewrite Hr|]. split.
  - rewrite Hrdom, Hc, Hdom. clear -Hinit Hfs Hfound.
    set (S := list_to_set defaults.CSV_FIELDS) in *. clearbody S.
    set (P := {["login_password"]} ∪ _ ∪ _) in *. clearbody P. set_solver.
  - intros k Hk Hnf Hnd. rewrite Hrk.
    2:{ intros ->. apply Hnd. by_compute. }
    rewrite complete_lookup.
    assert (row v !! k = None) as ->.
    { apply not_elem_of_dom. rewrite Hdom. clear -Hnf Hnd.
      rewrite !not_elem_of_cons in Hnd. destruct Hnd as (? & ? & ? & _).
      set_solver. }
    by rewrite decide_True.
Qed.

Lemma C1_witness :
  exists out r,
    parse_file defaults.cfg "/store" (File "/store/web/example.com" "pw")
    = (out, Ok r) /\
    dom r = list_to_set defaults.CSV_FIELDS /\
    forall k,
      k ∈ defaults.CSV_FIELDS ->
      k ∉ found_fields
            (extract defaults.cfg "/store/web/example.com"
               (init_row defaults.cfg "/store"
                  (File "/store/web/example.com" "pw"))
               (Py.splitlines "pw")) ->
      k ∉ ["type"; "name"; "folder"; "login_uri"] ->
      r !! k = Some "".
Proof.
  apply (C1_nonempty_entry_has_schema_keys
           "/store" (File "/store/web/example.com" "pw")).
  simpl. discriminate.
Defined.

(** C1 as stated fails for the empty entry: its row lacks [login_password]
    (and six more names of [CSV_FIELDS]). *)
Lemma C1_counterexample :
  exists out r,
    parse_file defaults.cfg "/store" (File "/store/web/example.com" "")
    = (out, Ok r) /\
    dom r ≠ list_to_set defaults.CSV_FIELDS.
Proof.
  eexists _, _. split; [reflexivity|]. intros H.
  assert ("login_password" ∈ (list_to_set defaults.CSV_FIELDS : gset string))
    as Hin by by_compute.
  rewrite <- H in Hin. apply elem_of_dom in Hin as [x Hx].
  vm_compute in Hx. discriminate.
Qed.

Lemma example_extract (row0 : gmap string string) (p : string) :
  extract defaults.cfg p row0 ["secret123"; "url: example.com"]
  = Vars (<["login_uri" := "example.com"]>
            (<["login_password" := "secret123"]> row0))
         ({["login_uri"]} ∪ ({["login_password"]} ∪ ∅)) [] [].
Proof. vm_compute. reflexivity. Qed.

(** The first line under [FIRSTLINE_IS_LOGIN_PASSWORD], up to the row that
    [parse] returns, in a configuration that keeps [login_password] apart
    from the fallback field and has [login_uri] and [name] in its
    schema. *)
Lemma first_line_password :
  (forall (cfg : config) (base_dir : string) (f : file) (l : string)
          (ls : list string),
     FIRSTLINE_IS_LOGIN_PASSWORD cfg = true ->
     Py.splitlines (data f) = l :: ls ->
     FALLBACK_FIELD cfg ≠ "login_password" ->
     "login_uri" ∈ CSV_FIELDS cfg ->
     "name" ∈ CSV_FIELDS cfg ->
     let row0 := init_row cfg base_dir f in
     let v := extract cfg (path f) row0 (l :: ls) in
     v = populate_fallback cfg
           (foldl (process_line cfg (path f))
                  (assign "login_password" l (Vars row0 ∅ [] [])) ls) /\
     "login_password" ∈ found_fields v /\
     row v !! "login_password" = Some l /\
     exists r, parse_file cfg base_dir f = (stdout v, Ok r) /\
               r !! "login_password" = Some l) /\
  (forall base_dir p,
     exists out r,
       parse_file defaults.cfg base_dir
         (File p ("secret123" +:+ nl +:+ "url: example.com")) = (out, Ok r) /\
       r !! "login_password" = Some "secret123" /\
       r !! "login_uri" = Some "example.com").
Proof.
  split.
  - intros cfg base_dir f l ls Hflag Hl Hfb Huri Hname row0 v.
    assert (v = populate_fallback cfg
                  (foldl (process_line cfg (path f))
                     (assign "login_password" l (Vars row0 ∅ [] [])) ls))
      as Hv.
    { subst v. unfold extract, first_line. by rewrite Hflag. }
    set (v0 := assign "login_password" l (Vars row0 ∅ [] [])) in *.
    set (v1 := foldl (process_line cfg (path f)) v0 ls) in *.
    assert ("login_password" ∈ found_fields v0) as H0 by (simpl; set_solver).
    assert ("login_password" ∈ found_fields v1) as H1.
    { by apply foldl_process_line_found. }
    assert (row v1 !! "login_password" = Some l) as Hr1.
    { subst v1. rewrite foldl_process_line_found_kept by done.
      simpl. by rewrite lookup_insert_eq. }
    assert ("login_password" ∈ found_fields v /\
            row v !! "login_password" = Some l) as [Hf Hr].
    { rewrite Hv. unfold populate_fallback. case_decide; simpl; [|done].
      by rewrite lookup_insert_ne. }
    split; [done|]. split; [done|]. split; [done|].
    unfold parse_file. rewrite Hl. fold row0. fold v.
    destruct (infer_uri_ok (complete cfg (row v)))
      as (r & -> & _ & Hrk & _).
    { rewrite complete_lookup. destruct (row v !! "login_uri"); [eauto|].
      rewrite decide_True by done. eauto. }
    { rewrite complete_lookup. destruct (row v !! "name"); [eauto|].
      rewrite decide_True by done. eauto. }
    exists r. split; [done|]. rewrite Hrk by done.
    by rewrite complete_lookup, Hr.
  - intros base_dir p. unfold parse_file.
    change (data (File p ?t)) with t. change (path (File p ?t)) with p.
    assert (Py.splitlines ("secret123" +:+ nl +:+ "url: example.com")
            = ["secret123"; "url: example.com"]) as -> by reflexivity.
    rewrite example_extract. cbn [row stdout].
    set (r := complete _ _).
    assert (r !! "login_uri" = Some "example.com") as Huri.
    { subst r. by rewrite complete_lookup, lookup_insert_eq. }
    assert (r !! "login_password" = Some "secret123") as Hpw.
    { subst r. rewrite complete_lookup, lookup_insert_ne by done.
      by rewrite lookup_insert_eq. }
    exists [], r. unfold infer_uri. rewrite Huri.
    rewrite decide_False by discriminate.
    split; [reflexivity|]. split; assumption.
Qed.

(** C4.  With [FIRSTLINE_IS_LOGIN_PASSWORD] set and a list of at least one
    line, the extraction is the loop over the lines after the first,
    started with [login_password] set to the first line verbatim and marked
    found: the first line goes through no pattern, and the loop leaves the
    password in place.  With [defaults.py] the row that [parse] returns has
    that password, and for the text of the example the password is
    [secret123] and the URI [example.com]. *)
Theorem C4_first_line_is_the_password :
  (forall (cfg : config) (path : string) (row0 : gmap string string)
          (l : string) (ls : list string),
     FIRSTLINE_IS_LOGIN_PASSWORD cfg = true ->
     let v1 := foldl (process_line cfg path)
                     (assign "login_password" l (Vars row0 ∅ [] [])) ls in
     extract cfg path row0 (l :: ls) = populate_fallback cfg v1 /\
     "login_password" ∈ found_fields v1 /\
     row v1 !! "login_password" = Some l) /\
  (forall (base_dir : string) (f : file) (l : string) (ls : list string),
     Py.splitlines (data f) = l :: ls ->
     exists out r,
       parse_file defaults.cfg base_dir f = (out, Ok r) /\
       r !! "login_password" = Some l) /\
  (forall base_dir p,
     exists out r,
       parse_file defaults.cfg base_dir
         (File p ("secret123" +:+ nl +:+ "url: example.com")) = (out, Ok r) /\
       r !! "login_password" = Some "secret123" /\
       r !! "login_uri" = Some "example.com").
Proof.
  split; [|split].
  - intros cfg path row0 l ls Hflag v1. split; [|split].
    + unfold extract, first_line. by rewrite Hflag.
    + apply foldl_process_line_found. simpl. set_solver.
    + subst v1. rewrite foldl_process_line_found_kept by (simpl; set_solver).
      simpl. by rewrite lookup_insert_eq.
  - intros base_dir f l ls Hl.
    destruct (proj1 first_line_password defaults.cfg base_dir f l ls)
      as (_ & _ & _ & r & Hr & Hpw); [done|done|discriminate|by_compute..|].
    eauto.
  - apply first_line_password.
Qed.

Lemma C4_witness :
  let f := File "/store/web/shop" ("secret123" +:+ nl +:+ "user: me") in
  (let v1 := foldl (process_line defaults.cfg "/store/web/shop")
                   (assign "login_password" "secret123"
                      (Vars (init_row defaults.cfg "/store" f) ∅ [] []))
                   ["user: me"] in
   extract defaults.cfg "/store/web/shop" (init_row defaults.cfg "/store" f)
           ["secret123"; "user: me"]
   = populate_fallback defaults.cfg v1 /\
   "login_password" ∈ found_fields v1 /\
   row v1 !! "login_password" = Some "secret123") /\
  exists out r,
    parse_file defaults.cfg "/store" f = (out, Ok r) /\
    r !! "login_password" = Some "secret123".
Proof.
  intros f. split.
  - apply (proj1 C4_first_line_is_the_password defaults.cfg
             "/store/web/shop" (init_row defaults.cfg "/store" f)
             "secret123" ["user: me"]).
    reflexivity.
  - apply (proj1 (proj2 C4_first_line_is_the_password) "/store" f
             "secret123" ["user: me"]).
    vm_compute. reflexivity.
Defined.

(** C6, corrected.  When two patterns of the ordered list both match a
    line and neither field is found yet, the inner loop ends at the earlier
    pattern at the latest, so that nothing declared after it (the later
    pattern included) is tried: the outcome is that of the list cut after
    the earlier pattern.  When moreover no pattern declared before the
    earlier one claims the line, the earlier pattern's field receives group
    1 of its match and the line does not reach the fallback lines. *)
Theorem C6_earlier_pattern_wins (cfg : config) (path line : string)
    (v : vars) (pre mid post : list (string * Re.pattern))
    (f1 f2 : string) (p1 p2 : Re.pattern) (m1 m2 : Re.state) :
  FIELD_PATTERNS cfg = pre ++ (f1, p1) :: mid ++ (f2, p2) :: post ->
  Re.re_match true (Re.pattern_re p1) line = Some m1 ->
  Re.re_match true (Re.pattern_re p2) line = Some m2 ->
  f1 ∉ found_fields v ->
  f2 ∉ found_fields v ->
  (forall later,
     match_line path line (pre ++ (f1, p1) :: later) v
     = match_line path line (pre ++ [(f1, p1)]) v) /\
  (match_line path line (FIELD_PATTERNS cfg) v).1 = true /\
  (claimed pre (found_fields v) line = false ->
   process_line cfg path v line
   = Vars (<[f1 := Re.group1 m1]> (row v)) ({[f1]} ∪ found_fields v)
          (fallback_field_lines v)
          (stdout v ++ dup_warnings path line pre)).
Proof.
  intros Hps H1 H2 Hf1 Hf2.
  assert (forall later,
            match_line path line (pre ++ (f1, p1) :: later) v
            = match_line path line (pre ++ [(f1, p1)]) v) as Hcut.
  { intros later. rewrite !match_line_app.
    pose proof (match_line_effect path line pre v) as He.
    destruct (match_line path line pre v) as [[] v1]; [done|].
    destruct He as (_ & _ & Hfound). simpl. rewrite H1.
    by rewrite !decide_False by by rewrite Hfound. }
  split; [done|]. split.
  - rewrite Hps, Hcut, match_line_broke.
    unfold claimed. rewrite existsb_app. simpl. rewrite H1.
    rewrite bool_decide_eq_true_2 by eauto.
    rewrite bool_decide_eq_true_2 by done. simpl. apply orb_true_r.
  - intros Hpre. unfold process_line. rewrite Hps.
    by rewrite (match_line_first path line pre f1 p1 _ v m1).
Qed.

Lemma C6_witness :
  let v := Vars {["login_uri" := "a"]} {["login_uri"]} [] [] in
  let pre := [("login_uri", defaults.login_uri_pattern)] in
  ((forall later,
      match_line "/store/x" "url: b"
        (pre ++ ("fields", any_line_pattern) :: later) v
      = match_line "/store/x" "url: b"
          (pre ++ [("fields", any_line_pattern)]) v) /\
   (match_line "/store/x" "url: b" (FIELD_PATTERNS overlapping_cfg) v).1
   = true /\
   (claimed pre (found_fields v) "url: b" = false ->
    process_line overlapping_cfg "/store/x" v "url: b"
    = Vars (<["fields" := "url: b"]> (row v))
           ({["fields"]} ∪ found_fields v) (fallback_field_lines v)
           (stdout v ++ dup_warnings "/store/x" "url: b" pre))) /\
  claimed pre (found_fields v) "url: b" = false /\
  dup_warnings "/store/x" "url: b" pre
  = [duplicate_warning "login_uri" "/store/x"].
Proof.
  intros v pre. split; [|split].
  - apply (C6_earlier_pattern_wins overlapping_cfg "/store/x" "url: b"
             v pre [] [] "fields" "favorite" any_line_pattern
             any_line_pattern
             (Re.State (Some "b"%char) "" (Some "url: b"))
             (Re.State (Some "b"%char) "" (Some "url: b"))).
    + reflexivity.
    + vm_compute. reflexivity.
    + vm_compute. reflexivity.
    + simpl. by_compute.
    + simpl. by_compute.
  - vm_compute. reflexivity.
  - vm_compute. reflexivity.
Defined.

(** C6 as stated fails for the second and third of three patterns that all
    match a line: both match, neither field is found, and the value goes
    to the field of the first pattern, not to that of the second. *)
Lemma C6_counterexample :
  let v := Vars ∅ {["login_password"]} [] [] in
  let v' := process_line overlapping_cfg "/store/x" v "url: a" in
  FIELD_PATTERNS overlapping_cfg !! 1 = Some ("fields", any_line_pattern) /\
  FIELD_PATTERNS overlapping_cfg !! 2 = Some ("favorite", any_line_pattern) /\
  is_Some (Re.re_match true (Re.pattern_re any_line_pattern) "url: a") /\
  ("fields" ∉ found_fields v) /\
  ("favorite" ∉ found_fields v) /\
  row v' !! "fields" = None /\
  row v' !! "login_uri" = Some "a".
Proof.
  split; [reflexivity|]. split; [reflexivity|].
  split; [vm_compute; by eexists|].
  split; [simpl; by_compute|]. split; [simpl; by_compute|].
  split; vm_compute; reflexivity.
Qed.



(** C2.  The code does not drop a duplicate line: in the entry with the
    lines [pw], [url: a], [url: b] the second [url:] line matches the
    [login_uri] pattern, whose field is found; one warning is printed and
    [login_uri] keeps [a], but the line is then appended to the fallback
    lines and ends up in [notes]. *)
Theorem C2_duplicate_line_is_not_dropped :
  let f := File "/store/web/shop"
                ("pw" +:+ nl +:+ "url: a" +:+ nl +:+ "url: b") in
  let v := extract defaults.cfg (path f) (init_row defaults.cfg "/store" f)
                   (Py.splitlines (data f)) in
  Py.splitlines (data f) = ["pw"; "url: a"; "url: b"] /\
  is_Some (Re.re_match true (Re.pattern_re defaults.login_uri_pattern)
             "url: b") /\
  row v !! "login_uri" = Some "a" /\
  fallback_field_lines v = ["url: b"] /\
  stdout v = [duplicate_warning "login_uri" "/store/web/shop"] /\
  exists r, (parse_file defaults.cfg "/store" f).2 = Ok r /\
            r !! "notes" = Some "url: b".
Proof.
  split; [vm_compute; reflexivity|].
  split; [vm_compute; by eexists|].
  split; [vm_compute; reflexivity|]. split; [vm_compute; reflexivity|].
  split; [vm_compute; reflexivity|].
  apply (Ok_by_compute _ (fun r => r !! "notes" = Some "url: b")).
  vm_compute. reflexivity.
Qed.



(** C5.  The code sets [notes] although no processed line matched no
    pattern: in the entry with the lines [pw], [url: a], [url: b] both
    processed lines match the [login_uri] pattern, and [notes] is set, to
    the second of them. *)
Theorem C5_matching_line_is_stored_in_notes :
  let f := File "/store/web/shop"
                ("pw" +:+ nl +:+ "url: a" +:+ nl +:+ "url: b") in
  (forall l, l ∈ ["url: a"; "url: b"] ->
             is_Some (Re.re_match true
                        (Re.pattern_re defaults.login_uri_pattern) l)) /\
  "notes" ∈ found_fields
              (extract defaults.cfg (path f) (init_row defaults.cfg "/store" f)
                       ["pw"; "url: a"; "url: b"]) /\
  exists r, (parse_file defaults.cfg "/store" f).2 = Ok r /\
            r !! "notes" = Some "url: b".
Proof.
  split; [|split].
  - intros l Hl. rewrite !elem_of_cons in Hl.
    destruct Hl as [->|[->|Hl]]; [vm_compute; by eexists..|].
    by apply elem_of_nil in Hl.
  - by_compute.
  - apply (Ok_by_compute _ (fun r => r !! "notes" = Some "url: b")).
    vm_compute. reflexivity.
Qed.

(** C8, corrected.  A field found in the content has the value the content
    gave it whatever the default and function-based fields had put into
    the row before (the run from the initial row and the run from the
    empty row agree on it), the loop of lines 116-118 leaves that value in
    place, and the row that [parse] returns has it, but for a [login_uri]
    that the content set to the empty string, which lines 120-121
    replace.  The row is returned when [login_uri] and [name] are in the
    schema. *)
Theorem C8_content_value_wins (cfg : config) (base_dir : string) (f : file)
    (l : string) (ls : list string) (k : string) :
  Py.splitlines (data f) = l :: ls ->
  let v := extract cfg (path f) (init_row cfg base_dir f) (l :: ls) in
  let w := extract cfg (path f) ∅ (l :: ls) in
  k ∈ found_fields v ->
  (row v !! k = row w !! k /\ is_Some (row w !! k)) /\
  complete cfg (row v) !! k = row w !! k /\
  (forall r, (parse_file cfg base_dir f).2 = Ok r ->
             k ≠ "login_uri" \/ row w !! k ≠ Some "" ->
             r !! k = row w !! k) /\
  ("login_uri" ∈ CSV_FIELDS cfg -> "name" ∈ CSV_FIELDS cfg ->
   exists r, parse_file cfg base_dir f = (stdout v, Ok r)).
Proof.
  intros Hl v w Hk.
  destruct (extract_row_irrelevant cfg (path f) (init_row cfg base_dir f) ∅
              (l :: ls)) as (Hf & _ & _ & Hr).
  fold v w in Hf, Hr.
  assert (is_Some (row w !! k)) as [x Hx].
  { apply elem_of_dom. unfold w. rewrite extract_dom. fold w.
    rewrite <- Hf. set_solver. }
  assert (row v !! k = Some x) as Hvx by by rewrite Hr.
  assert (complete cfg (row v) !! k = Some x) as Hcx
    by by rewrite complete_lookup, Hvx.
  split; [split; [congruence|by rewrite Hx]|]. split; [congruence|]. split.
  - intros r. rewrite (parse_file_lines _ _ _ _ _ Hl). simpl. fold v.
    intros [Hother Hsame]%infer_uri_Ok Hor. rewrite Hx.
    destruct (decide (k = "login_uri")) as [->|Hne].
    + destruct Hor as [?|Hne]; [done|]. rewrite Hsame; [done|].
      rewrite Hcx. by rewrite Hx in Hne.
    + by rewrite Hother.
  - intros Huri Hname. by apply parse_file_returns.
Qed.

Lemma C8_witness :
  let f := File "/store/x" ("pw" +:+ nl +:+ "user: me") in
  let v := extract defaulted_cfg "/store/x" (init_row defaulted_cfg "/store" f)
                   ["pw"; "user: me"] in
  let w := extract defaulted_cfg "/store/x" ∅ ["pw"; "user: me"] in
  ((row v !! "login_username" = row w !! "login_username" /\
    is_Some (row w !! "login_username")) /\
   complete defaulted_cfg (row v) !! "login_username"
   = row w !! "login_username" /\
   (forall r, (parse_file defaulted_cfg "/store" f).2 = Ok r ->
              "login_username" ≠ "login_uri" \/
              row w !! "login_username" ≠ Some "" ->
              r !! "login_username" = row w !! "login_username") /\
   ("login_uri" ∈ CSV_FIELDS defaulted_cfg ->
    "name" ∈ CSV_FIELDS defaulted_cfg ->
    exists r, parse_file defaulted_cfg "/store" f = (stdout v, Ok r))) /\
  init_row defaulted_cfg "/store" f !! "login_username" = Some "anonymous" /\
  row w !! "login_username" = Some "me".
Proof.
  intros f. split; [|split].
  - apply (C8_content_value_wins defaulted_cfg "/store" f "pw" ["user: me"]
             "login_username").
    + vm_compute. reflexivity.
    + by_compute.
  - vm_compute. reflexivity.
  - vm_compute. reflexivity.
Defined.

(** C8 as stated fails for [login_uri]: the line [url:] sets it, from the
    content, to the empty string, and lines 120-121 replace that value by
    the name of the entry. *)
Lemma C8_counterexample :
  let f := File "/store/web/example.com" ("pw" +:+ nl +:+ "url:") in
  let v := extract defaults.cfg (path f) (init_row defaults.cfg "/store" f)
                   (Py.splitlines (data f)) in
  "login_uri" ∈ found_fields v /\
  row v !! "login_uri" = Some "" /\
  exists r, (parse_file defaults.cfg "/store" f).2 = Ok r /\
            r !! "login_uri" = Some "example.com".
Proof.
  split; [by_compute|]. split; [vm_compute; reflexivity|].
  apply (Ok_by_compute _ (fun r => r !! "login_uri" = Some "example.com")).
  vm_compute. reflexivity.
Qed.

(** ** The loop over the files *)

Lemma parse_loop_rows cfg base_dir files parsed out out' rows :
  parse_loop cfg base_dir files parsed out = (out', Ok rows) ->
  exists rows',
    rows = parsed ++ rows' /\
    Forall2 (fun f r => (parse_file cfg base_dir f).2 = Ok r) files rows'.
Proof.
  revert parsed out. induction files as [|f fs IH]; intros parsed out; simpl.
  - intros [= <- <-]. exists []. by rewrite app_nil_r.
  - destruct (parse_file cfg base_dir f) as [msgs [r|e]] eqn:Hf; [|done].
    intros (rows' & -> & Hall)%IH. exists (r :: rows').
    split; [by rewrite <- app_assoc|]. constructor; [by rewrite Hf|done].
Qed.

(** C3, corrected.  [_guess_uri] returns the name verbatim when the row has
    the key [login_uri] and the name resembles a host name: one or more
    labels of 1 to 63 letters, digits and hyphens with no hyphen at either
    end, each followed by a dot, and a last label of 2 to 6 letters.  It
    returns the empty string when the row has no key [login_uri], and when
    the name does not begin with such labels and two letters.  Both
    [example.com] and [notes.txt] resemble a host name. *)
Theorem C3_guess_uri_returns_host_names
    (r : gmap string string) (name : string) :
  r !! "name" = Some name ->
  ("login_uri" ∉ dom r -> _guess_uri r = Ok "") /\
  ("login_uri" ∈ dom r -> is_hostname name -> _guess_uri r = Ok name) /\
  ("login_uri" ∈ dom r -> ~ hostname_prefix name -> _guess_uri r = Ok "") /\
  is_hostname "example.com" /\ is_hostname "notes.txt".
Proof.
  intros Hn. unfold _guess_uri. rewrite Hn. split; [|split; [|split]].
  - intros H. by rewrite bool_decide_eq_false_2.
  - intros H Hh%is_hostname_prefix. rewrite bool_decide_eq_true_2 by done.
    simpl. apply DomainFacts.search_domain in Hh as [m ->]. done.
  - intros H Hh. rewrite bool_decide_eq_true_2 by done. simpl.
    destruct (Re.re_search false DOMAIN_REGEX name) as [m|] eqn:Hs; [|done].
    destruct Hh. apply DomainFacts.search_domain. by rewrite Hs.
  - split.
    + exists ["example"], "com". split; [done|]. split; [by repeat constructor|].
      split; [simpl; lia|]. by split.
    + exists ["notes"], "txt". split; [done|]. split; [by repeat constructor|].
      split; [simpl; lia|]. by split.
Qed.

Lemma C3_witness :
  let r : gmap string string :=
    {["name" := "example.com"; "login_uri" := ""]} in
  (("login_uri" ∉ dom r -> _guess_uri r = Ok "") /\
   ("login_uri" ∈ dom r -> is_hostname "example.com" ->
    _guess_uri r = Ok "example.com") /\
   ("login_uri" ∈ dom r -> ~ hostname_prefix "example.com" ->
    _guess_uri r = Ok "") /\
   is_hostname "example.com" /\ is_hostname "notes.txt") /\
  _guess_uri r = Ok "example.com".
Proof.
  split.
  - apply (C3_guess_uri_returns_host_names
             {["name" := "example.com"; "login_uri" := ""]} "example.com").
    vm_compute. reflexivity.
  - vm_compute. reflexivity.
Defined.

(** C3 as stated fails: the name [notes.txt] is returned as the URI, so
    that an entry [notes.txt] without a [url:] line gets the [login_uri]
    [notes.txt]. *)
Lemma C3_counterexample :
  _guess_uri {["name" := "notes.txt"; "login_uri" := ""]} = Ok "notes.txt" /\
  exists r, (parse_file defaults.cfg "/store"
               (File "/store/notes.txt" "secret")).2 = Ok r /\
            r !! "login_uri" = Some "notes.txt".
Proof.
  split; [vm_compute; reflexivity|].
  apply (Ok_by_compute _ (fun r => r !! "login_uri" = Some "notes.txt")).
  vm_compute. reflexivity.
Qed.

(** C7.  [name] is the file name of the path, but [folder] removes every
    occurrence of the base directory from the parent directory, not only
    the leading one: below the store [store], the folder [bookstore]
    becomes [book]. *)
Theorem C7_folder_removes_inner_occurrences :
  defaults.name "store" "store/bookstore/amazon" "" = "amazon" /\
  Py.dirname "store/bookstore/amazon" = "store/bookstore" /\
  defaults.folder "store" "store/bookstore/amazon" "" = "book" /\
  exists r, (parse_file defaults.cfg "store"
               (File "store/bookstore/amazon" "secret")).2 = Ok r /\
            r !! "folder" = Some "book".
Proof.
  split; [vm_compute; reflexivity|]. split; [vm_compute; reflexivity|].
  split; [vm_compute; reflexivity|].
  apply (Ok_by_compute _ (fun r => r !! "folder" = Some "book")).
  vm_compute. reflexivity.
Qed.

(** * Further properties of the code *)











(** ** The patterns of [defaults.py] *)

Module PatternFacts.
Import Re ReFacts.







End PatternFacts.



(** ** Paths *)

Module PathFacts.
Import DomainFacts.














End PathFacts.




(** ** Writing the rows *)










(** ** The decrypted files *)

Module DecryptFacts.
Import DomainFacts PathFacts.









End DecryptFacts.

